(** * sbommerge: the reconciliation engine of [sbommerge/cli.py]

    A shallow embedding of [main] of [src/sbommerge/cli.py]: the file
    merger, the package merger with its version guard, the synthetic root
    package, the relationship rebuilder, the four difference counters and
    the return code, followed by the properties of the specification.

    Conventions of the embedding.
    - A file or package record is a Python [dict] from attribute names to
      values, compared with [==] and searched with [in]: a [gmap string
      value], whose equality is the equality of dicts.  The order in which
      a dict is iterated only fixes the order of the [set_value] calls of
      one pass, each on its own key, so it does not show in the result.
    - [files] and [packages] of the merged document are dicts that the code
      fills and (for [packages]) iterates: insertion-ordered dictionaries,
      [odict].
    - [x["name"]] raises [KeyError] on a record without a name; the loops
      run in the [option] monad and [None] is that uncaught exception.
    - Only [logger.info] is modelled ([logger.debug] changes no state). *)

From Stdlib Require Import ZArith Lia Ascii String.
From stdpp Require Import base option list strings gmap.

Local Open Scope string_scope.
Local Open Scope list_scope.
#[local] Set Warnings "-clear-no-such-hyp".

(** ** Data model *)

(** Attribute values: the strings of the parser, the booleans that
    [set_filesanalysis] stores, and Python's [None], which [dict.get]
    returns for an absent attribute. *)
Inductive value : Type :=
  | VStr (s : string)
  | VBool (b : bool)
  | VNone.

#[global] Instance value_eq_dec : EqDecision value.
Proof. solve_decision. Defined.

Abbreviation record := (gmap string value).

Definition NOASSERTION : value := VStr "NOASSERTION".

(** [str(v)], as an f-string prints a value. *)
Definition py_str (v : value) : string :=
  match v with
  | VStr s => s
  | VBool true => "True"
  | VBool false => "False"
  | VNone => "None"
  end.

(** A relationship as [SBOMRelationship] holds it; the two endpoint types
    are only set on rebuilt edges. *)
Record relationship : Type := Relationship {
  rel_source : value;
  rel_type : string;
  rel_target : value;
  rel_source_type : option string;
  rel_target_type : option string
}.

#[global] Instance relationship_eq_dec : EqDecision relationship.
Proof. solve_decision. Defined.

(** What the parser returns for one input. *)
Record document : Type := Document {
  doc_files : list record;
  doc_packages : list record;
  doc_relationships : list relationship
}.

(** The four counters of [main]. *)
Record counters : Type := Counters {
  updated_info : nat;
  identical_info : nat;
  additional_info : nat;
  merged_info : nat
}.

#[global] Instance counters_eq_dec : EqDecision counters.
Proof. solve_decision. Defined.

Definition counters_zero : counters := Counters 0 0 0 0.

Definition incr_updated (c : counters) : counters :=
  Counters (S (updated_info c)) (identical_info c) (additional_info c) (merged_info c).
Definition incr_identical (c : counters) : counters :=
  Counters (updated_info c) (S (identical_info c)) (additional_info c) (merged_info c).
Definition incr_additional (c : counters) : counters :=
  Counters (updated_info c) (identical_info c) (S (additional_info c)) (merged_info c).
Definition incr_merged (c : counters) : counters :=
  Counters (updated_info c) (identical_info c) (additional_info c) (S (merged_info c)).

(** ** Insertion-ordered dictionaries *)

Module OrderedDict.
Section odict.
Context {K V : Type} `{EqDecision K}.

Definition odict : Type := list (K * V).

(** [d[k] = v]: a present key keeps its place, a new key goes last. *)
Fixpoint set (k : K) (v : V) (d : odict) : odict :=
  match d with
  | [] => [(k, v)]
  | (k', v') :: d' =>
      if decide (k' = k) then (k, v) :: d' else (k', v') :: set k v d'
  end.

(** [d.get(k)]. *)
Fixpoint get (k : K) (d : odict) : option V :=
  match d with
  | [] => None
  | (k', v') :: d' => if decide (k' = k) then Some v' else get k d'
  end.

(** [list(d)]: the keys, in insertion order. *)
Definition keys (d : odict) : list K := d.*1.
End odict.
Arguments odict : clear implicits.
End OrderedDict.

Abbreviation odict := OrderedDict.odict.

(** ** The loops of the code *)

(** [for x in l: body], where the body may raise. *)
Fixpoint for_each {A S : Type} (body : A → S → option S) (l : list A) (s : S)
  : option S :=
  match l with
  | [] => Some s
  | x :: l' => s' ← body x s; for_each body l' s'
  end.

(** ** The record builders of lib4sbom *)

(** Modelled from the spec: [SBOMFile] and [SBOMPackage] of lib4sbom, the
    reconciler object of the design notes, which is reset ([initialise])
    and filled for each entity.  [initialise] makes a fresh empty dict,
    [set_value] assigns one attribute, [copy_file] and [copy_package]
    assign every attribute of a record, [get_value] is [dict.get]. *)
Definition initialise : record := ∅.

Definition set_value (param : string) (v : value) (sbom : record) : record :=
  <[param := v]> sbom.

Definition copy_record (r : record) (sbom : record) : record :=
  foldl (λ acc kv, set_value kv.1 kv.2 acc) sbom (map_to_list r).

Definition get_value (param : string) (sbom : record) : value :=
  default VNone (sbom !! param).

Definition get_name (sbom : record) : value := get_value "name" sbom.

(** ** Attribute Reconciler (cli.py lines 136-158 and 221-243) *)

(** The body of [for param in file]. *)
Definition reconcile_param (file2 : record) (st : record * counters)
    (kv : string * value) : record * counters :=
  let '(sbom, c) := st in
  let '(param, p1) := kv in
  match file2 !! param with
  | Some p2 =>
      if decide (p1 = p2) then (set_value param p1 sbom, incr_identical c)
      else
        let v := if decide (p1 = NOASSERTION) then p2 else p1 in
        (set_value param v sbom, incr_updated c)
  | None => (set_value param p1 sbom, incr_additional c)
  end.

(** The body of [for param in file2]. *)
Definition add_new_param (file : record) (sbom : record)
    (kv : string * value) : record :=
  match file !! kv.1 with
  | Some _ => sbom
  | None => set_value kv.1 kv.2 sbom
  end.

Definition reconcile (file file2 : record) (st : record * counters)
  : record * counters :=
  let '(sbom, c) := foldl (reconcile_param file2) st (map_to_list file) in
  (foldl (add_new_param file) sbom (map_to_list file2), c).

(** [x[param]] on a record: [None] is [KeyError]. *)
Definition getitem (param : string) (r : record) : option value := r !! param.

(** ** File Set Merger (cli.py lines 128-175) *)

Abbreviation files_dict := (odict value record).

(** [if file2["name"] == file["name"]: ...], the body of
    [for file2 in files2] (lines 134-158). *)
Definition merge_file_match (file file2 : record) (st : record * counters)
  : option (record * counters) :=
  n2 ← getitem "name" file2;
  n1 ← getitem "name" file;
  if decide (n2 = n1) then Some (reconcile file file2 st) else Some st.

(** The body of [for file in files1] (lines 131-163). *)
Definition process_file1 (files2 : list record) (file : record)
    (st : files_dict * counters) : option (files_dict * counters) :=
  let '(files, c) := st in
  '(sbom_file, c') ←
    (if decide (file ∈ files2) then
       for_each (merge_file_match file) files2 (initialise, c)
     else
       _ ← getitem "name" file;
       Some (copy_record file initialise, incr_merged c));
  Some (OrderedDict.set (get_name sbom_file) sbom_file files, c').

(** The body of [for file in files2] (lines 165-175). *)
Definition process_file2 (files1 : list record) (file : record)
    (st : files_dict * counters) : option (files_dict * counters) :=
  let '(files, c) := st in
  if decide (0 < length files1) then
    if decide (file ∉ files1) then
      _ ← getitem "name" file;
      let sbom_file := copy_record file initialise in
      Some (OrderedDict.set (get_name sbom_file) sbom_file files, incr_merged c)
    else Some (files, c)
  else
    let sbom_file := copy_record file initialise in
    Some (OrderedDict.set (get_name sbom_file) sbom_file files, incr_identical c).

Definition merge_files (files1 files2 : list record) (c : counters)
  : option (files_dict * counters) :=
  st ← for_each (process_file1 files2) files1 ([], c);
  for_each (process_file2 files1) files2 st.

(** ** Root Synthesizer (cli.py lines 183-200) *)

(** [s.replace('.', '-')]. *)
Fixpoint replace_dot (s : string) : string :=
  match s with
  | EmptyString => EmptyString
  | String a s' =>
      String (if decide (a = "."%char) then "-"%char else a) (replace_dot s')
  end.

(** [name1] and [name2] are [Path(args.FILE1).name] and
    [Path(args.FILE2).name]. *)
Definition root_package_name (name1 name2 : string) : string :=
  "MERGETOOL-" +:+ replace_dot name1 +:+ "-" +:+ replace_dot name2.

Definition parent_name (root_package : string) : string :=
  "SBOM-" +:+ root_package.

(** Modelled from the spec: the setters of lib4sbom's [SBOMPackage] that
    build the root package: [type] is "application", [filesAnalyzed] is
    false, both licenses are "NOASSERTION" and the supplier is
    ("UNKNOWN", "NOASSERTION"); no version is set. *)
Definition root_package_record (root_package : string) : record :=
  set_value "supplier" NOASSERTION
    (set_value "supplier_type" (VStr "UNKNOWN")
      (set_value "licenseconcluded" NOASSERTION
        (set_value "licensedeclared" NOASSERTION
          (set_value "filesanalysis" (VBool false)
            (set_value "type" (VStr "application")
              (set_value "name" (VStr root_package) initialise)))))).

(** Modelled from the spec: lib4sbom's [SBOMRelationship]:
    [set_relationship] stores the triple, [set_source_type] and
    [set_target_type] the endpoint kinds. *)
Definition set_relationship (src : value) (type : string) (tgt : value)
  : relationship :=
  Relationship src type tgt None None.

Definition set_endpoint_types (source_type target_type : string)
    (r : relationship) : relationship :=
  Relationship (rel_source r) (rel_type r) (rel_target r)
    (Some source_type) (Some target_type).

Definition describes_edge (root_package : string) : relationship :=
  set_relationship (VStr (parent_name root_package)) "DESCRIBES"
    (VStr root_package).

(** ** Package Set Merger (cli.py lines 201-259) *)

Abbreviation package_key := (value * value)%type.
Abbreviation packages_dict := (odict package_key record).

(** The key [(get_name(), get_value("version"))]. *)
Definition package_key_of (sbom_package : record) : package_key :=
  (get_name sbom_package, get_value "version" sbom_package).

Definition version_mismatch_message (name v1 v2 : value) : string :=
  "[ERROR] Version mismatch for " +:+ py_str name +:+ " - " +:+ py_str v1
    +:+ " " +:+ py_str v2.

(** The state of the package loops: the builder, the counters and the
    lines written by [logger.info]. *)
Abbreviation package_acc := (record * counters * list string)%type.

(** The body of [for package2 in packages2] (lines 206-243). *)
Definition merge_package_match (package package2 : record) (st : package_acc)
  : option package_acc :=
  let '(sbom_package, c, log) := st in
  n2 ← getitem "name" package2;
  n1 ← getitem "name" package;
  if decide (n2 = n1) then
    match package !! "version", package2 !! "version" with
    | Some v1, Some v2 =>
        if decide (v1 ≠ v2) then
          Some (sbom_package, c, log ++ [version_mismatch_message n1 v1 v2])
        else
          let '(sbom_package', c') := reconcile package package2 (sbom_package, c) in
          Some (sbom_package', c', log)
    | _, _ =>
        let '(sbom_package', c') := reconcile package package2 (sbom_package, c) in
        Some (sbom_package', c', log)
    end
  else Some st.

Abbreviation packages_state := (packages_dict * counters * list string)%type.

(** The body of [for package in packages1] (lines 202-250). *)
Definition process_package1 (packages2 : list record) (package : record)
    (st : packages_state) : option packages_state :=
  let '(packages, c, log) := st in
  '(sbom_package, c', log') ←
    (if decide (package ∈ packages2) then
       for_each (merge_package_match package) packages2 (initialise, c, log)
     else
       _ ← getitem "name" package;
       Some (copy_record package initialise, incr_merged c, log));
  Some (OrderedDict.set (package_key_of sbom_package) sbom_package packages,
        c', log').

(** The body of [for package in packages2] (lines 252-259). *)
Definition process_package2 (packages1 : list record) (package : record)
    (st : packages_state) : option packages_state :=
  let '(packages, c, log) := st in
  if decide (package ∉ packages1) then
    _ ← getitem "name" package;
    let sbom_package := copy_record package initialise in
    Some (OrderedDict.set (package_key_of sbom_package) sbom_package packages,
          incr_merged c, log)
  else Some st.

(** Lines 179-259: the root package is stored first. *)
Definition merge_packages (root_package : string)
    (packages1 packages2 : list record) (c : counters)
  : option packages_state :=
  let sbom_package := root_package_record root_package in
  let packages := OrderedDict.set (package_key_of sbom_package) sbom_package [] in
  st ← for_each (process_package1 packages2) packages1 (packages, c, []);
  for_each (process_package2 packages1) packages2 st.

(** ** Relationship Rebuilder (cli.py lines 261-315) *)

(** The locals [source], [target], [source_type] and [target_type]. *)
Abbreviation endpoints := (value * value * string * string)%type.

(** The body of [for f in files1] (lines 268-273). *)
Definition resolve_file (r : relationship) (f : record) (st : endpoints)
  : option endpoints :=
  let '(source, target, source_type, target_type) := st in
  n ← getitem "name" f;
  if decide (n = rel_source r) then Some (n, target, "file", target_type)
  else if decide (n = rel_target r) then Some (source, n, source_type, "file")
  else Some st.

(** The body of [for p in packages1] (lines 275-278). *)
Definition resolve_package (r : relationship) (p : record) (st : endpoints)
  : option endpoints :=
  let '(source, target, source_type, target_type) := st in
  n ← getitem "name" p;
  if decide (n = rel_source r) then Some (n, target, source_type, target_type)
  else if decide (n = rel_target r) then Some (source, n, source_type, target_type)
  else Some st.

Definition resolve (files packages : list record) (r : relationship)
  : option endpoints :=
  st ← for_each (resolve_file r) files (VNone, VNone, "package", "package");
  for_each (resolve_package r) packages st.

(** The body of [for r in relationship1] (lines 262-284); the loop over
    [relationship2] (lines 287-309) is the same on the second document. *)
Definition rebuild_relationship (files packages : list record)
    (r : relationship) (relationships : list relationship)
  : option (list relationship) :=
  '(source, target, source_type, target_type) ← resolve files packages r;
  if decide (source ≠ VNone ∧ target ≠ VNone) then
    Some (relationships ++
          [set_endpoint_types source_type target_type
             (set_relationship source (rel_type r) target)])
  else Some relationships.

Definition contains_edge (root_package : string) (p : package_key)
  : relationship :=
  set_relationship (VStr root_package) "CONTAINS" p.1.

(** [for p in packages] (lines 312-315). *)
Definition add_contains (root_package : string) (packages : packages_dict)
    (relationships : list relationship) : list relationship :=
  foldl (λ rels p, rels ++ [contains_edge root_package p]) relationships
    (OrderedDict.keys packages).

(** ** The merge (cli.py lines 121-315) *)

(** The merged document handed to the generator. *)
Record sbom : Type := SBOM {
  sbom_files : files_dict;
  sbom_packages : packages_dict;
  sbom_relationships : list relationship
}.

Record merge_result : Type := MergeResult {
  merged_sbom : sbom;
  merge_counters : counters;
  merge_log : list string
}.

Definition merge (root_package : string) (doc1 doc2 : document)
  : option merge_result :=
  '(files, c) ← merge_files (doc_files doc1) (doc_files doc2) counters_zero;
  '(packages, c, log) ←
    merge_packages root_package (doc_packages doc1) (doc_packages doc2) c;
  let relationships := [describes_edge root_package] in
  relationships ←
    for_each (rebuild_relationship (doc_files doc1) (doc_packages doc1))
      (doc_relationships doc1) relationships;
  relationships ←
    for_each (rebuild_relationship (doc_files doc2) (doc_packages doc2))
      (doc_relationships doc2) relationships;
  let relationships := add_contains root_package packages relationships in
  Some (MergeResult (SBOM files packages relationships) c log).

(** ** [main] (cli.py lines 67-359) *)

(** [a or b] on integers. *)
Definition py_or (a b : nat) : nat := if decide (a = 0) then b else a.

(** What a run leaves behind: the value returned by [main], the lines of
    [logger.info], the summary printed on [stderr] and the call of the
    generator with its project name. *)
Record outcome : Type := Outcome {
  return_code : Z;
  info_log : list string;
  summary : option counters;
  generated : option (string * sbom)
}.

Section Main.
(** The collaborators of [main]: [Path(f).exists()], [Path(f).name] and
    the parser ([parse_file] followed by [get_files], [get_packages] and
    [get_relationships]). *)
Variable path_exists : string → bool.
Variable path_name : string → string.
Variable parse_file : string → document.

Definition main (FILE1 FILE2 : string) : option outcome :=
  if decide (FILE1 ≠ FILE2) then
    let log1 := if path_exists FILE1 then [] else [FILE1 +:+ " does not exist"] in
    let log2 := if path_exists FILE2 then [] else [FILE2 +:+ " does not exist"] in
    let file_found := path_exists FILE1 && path_exists FILE2 in
    if negb file_found then Some (Outcome (-1) (log1 ++ log2) None None)
    else
      let doc1 := parse_file FILE1 in
      let doc2 := parse_file FILE2 in
      let root_package :=
        root_package_name (path_name FILE1) (path_name FILE2) in
      let parent := parent_name root_package in
      res ← merge root_package doc1 doc2;
      let c := merge_counters res in
      let rc :=
        if decide (py_or (py_or (updated_info c) (additional_info c))
                     (merged_info c) ≠ 0)
        then 1%Z else 0%Z in
      Some (Outcome rc (merge_log res) (Some c) (Some (parent, merged_sbom res)))
  else
    Some (Outcome (-1) ["Must specify different filenames."] None None).
End Main.

(** * The vocabulary of the properties *)

(** The value the reconciler keeps for an attribute of the first record:
    lines 140-153. *)
Definition resolve_value (p1 : value) (o2 : option value) : value :=
  match o2 with
  | Some p2 =>
      if decide (p1 = p2) then p1
      else if decide (p1 = NOASSERTION) then p2 else p1
  | None => p1
  end.

(** The three classes of an attribute of the first record. *)
Definition updated_attr (file2 : record) (kv : string * value) : Prop :=
  match file2 !! kv.1 with Some p2 => kv.2 ≠ p2 | None => False end.
Definition identical_attr (file2 : record) (kv : string * value) : Prop :=
  match file2 !! kv.1 with Some p2 => kv.2 = p2 | None => False end.
Definition additional_attr (file2 : record) (kv : string * value) : Prop :=
  file2 !! kv.1 = None.

#[global] Instance updated_attr_dec file2 kv : Decision (updated_attr file2 kv).
Proof. unfold updated_attr. destruct (file2 !! kv.1); apply _. Defined.
#[global] Instance identical_attr_dec file2 kv : Decision (identical_attr file2 kv).
Proof. unfold identical_attr. destruct (file2 !! kv.1); apply _. Defined.
#[global] Instance additional_attr_dec file2 kv : Decision (additional_attr file2 kv).
Proof. unfold additional_attr. apply _. Defined.

(** A record the parser can hand over: it has a name. *)
Definition has_name (r : record) : Prop := is_Some (r !! "name").

#[global] Instance has_name_dec r : Decision (has_name r).
Proof. unfold has_name. apply _. Defined.

(** [r2["name"] == r["name"]] on records that have a name. *)
Definition same_name (r r2 : record) : Prop := r2 !! "name" = r !! "name".

#[global] Instance same_name_dec r r2 : Decision (same_name r r2).
Proof. unfold same_name. apply _. Defined.

(** The version guard of lines 207-211. *)
Definition version_conflict (package package2 : record) : Prop :=
  match package !! "version", package2 !! "version" with
  | Some v1, Some v2 => v1 ≠ v2
  | _, _ => False
  end.

#[global] Instance version_conflict_dec package package2 :
  Decision (version_conflict package package2).
Proof.
  unfold version_conflict.
  destruct (package !! "version"), (package2 !! "version"); apply _.
Defined.

(** The line logged for a vetoed pair. *)
Definition veto_message (package package2 : record) : string :=
  version_mismatch_message (get_name package) (get_value "version" package)
    (get_value "version" package2).

(** Some record of [l] is named [n]. *)
Definition named_in (n : value) (l : list record) : Prop :=
  Exists (λ f, f !! "name" = Some n) l.

#[global] Instance named_in_dec n l : Decision (named_in n l).
Proof. unfold named_in. apply _. Defined.

(** An endpoint resolves in a document when it is the name of one of its
    files or packages ([None] is not a name: line 279). *)
Definition resolves (files packages : list record) (e : value) : Prop :=
  e ≠ VNone ∧ named_in e (files ++ packages).

#[global] Instance resolves_dec files packages e :
  Decision (resolves files packages e).
Proof. unfold resolves. apply _. Defined.

(** What one iteration of either scan (lines 268-273 and 275-278) does to
    the locals [source] and [target]. *)
Definition scan_step (r : relationship) (f : record) (st st' : endpoints) : Prop :=
  ∃ n, f !! "name" = Some n
    ∧ st'.1.1.1 = (if decide (n = rel_source r) then n else st.1.1.1)
    ∧ st'.1.1.2 = (if decide (n = rel_source r) then st.1.1.2
                   else if decide (n = rel_target r) then n else st.1.1.2).

(** The edges one relationship contributes, when its scans do not raise. *)
Definition rebuilt (files packages : list record) (r : relationship)
  : list relationship :=
  match resolve files packages r with
  | Some (source, target, source_type, target_type) =>
      if decide (source ≠ VNone ∧ target ≠ VNone) then
        [set_endpoint_types source_type target_type
           (set_relationship source (rel_type r) target)]
      else []
  | None => []
  end.

(** Storing a list of records one after the other, each under its key. *)
Definition store_all {K : Type} `{EqDecision K} (key : record → K)
    (l : list record) (d : odict K record) : odict K record :=
  foldl (λ d g, OrderedDict.set (key g) g d) d l.

(** The Identity Matcher as the specification words it: the first entity
    of the second document, in its order, that bears the name of [a]. *)
Definition first_match (a : record) (B : list record) : option record :=
  head (filter (same_name a) B).

(** An endpoint names an entity of the merged document: a key of the file
    mapping, the name in a key of the package mapping, or the root
    package. *)
Definition endpoint_ok (root_package : string) (m : sbom) (e : value) : Prop :=
  e ∈ OrderedDict.keys (sbom_files m)
  ∨ e ∈ (OrderedDict.keys (sbom_packages m)).*1
  ∨ e = VStr root_package.

#[global] Instance endpoint_ok_dec root_package m e :
  Decision (endpoint_ok root_package m e).
Proof. unfold endpoint_ok. apply _. Defined.

(** The run signals differences: one of the updated, new and merged
    counters is not zero. *)
Definition signals_differences (c : counters) : Prop :=
  updated_info c ≠ 0 ∨ additional_info c ≠ 0 ∨ merged_info c ≠ 0.

#[global] Instance signals_differences_dec c : Decision (signals_differences c).
Proof. unfold signals_differences. apply _. Defined.

(** Counters moved by [n] in one class. *)
Definition add_identical (n : nat) (c : counters) : counters :=
  Counters (updated_info c) (identical_info c + n) (additional_info c)
    (merged_info c).
Definition add_merged (n : nat) (c : counters) : counters :=
  Counters (updated_info c) (identical_info c) (additional_info c)
    (merged_info c + n).

(** The number of attributes of the records of a list. *)
Definition attributes (l : list record) : nat := sum_list_with size l.

(** The name attribute as a key: what [x["name"]] compares. *)
Definition name_attr (r : record) : option value := r !! "name".

(** A string without the character '.'. *)
Definition dot_free (s : string) : Prop :=
  "."%char ∉ list_ascii_of_string s.

(** The package mapping before the loops: the root package alone. *)
Definition root_only (root_package : string) : packages_dict :=
  [((VStr root_package, VNone), root_package_record root_package)].

(** Some record of one document has no exact copy in the other, the
    case of the second document's files counting only when the first
    document has files (line 166). *)
Definition unmatched (doc1 doc2 : document) : Prop :=
  (∃ f, f ∈ doc_files doc1 ∧ f ∉ doc_files doc2)
  ∨ (doc_files doc1 ≠ [] ∧ ∃ f, f ∈ doc_files doc2 ∧ f ∉ doc_files doc1)
  ∨ (∃ p, p ∈ doc_packages doc1 ∧ p ∉ doc_packages doc2)
  ∨ (∃ p, p ∈ doc_packages doc2 ∧ p ∉ doc_packages doc1).

(** ** Inputs used below *)

Module Scenarios.
(** Two files that share a name and differ in their attributes. *)
Definition fileA : record :=
  {[ "name" := VStr "a"; "licenseconcluded" := NOASSERTION;
     "copyrighttext" := VStr "c" ]}.
Definition fileB : record :=
  {[ "name" := VStr "a"; "licenseconcluded" := VStr "MIT" ]}.

(** The file of the first document, and the second document holding an
    exact copy of it after another file of the same name. *)
Definition fileN : record :=
  {[ "name" := VStr "a"; "licenseconcluded" := NOASSERTION ]}.

(** The version veto scenario of the specification. *)
Definition libfoo1 : record :=
  {[ "name" := VStr "libfoo"; "version" := VStr "1.0" ]}.
Definition libfoo2 : record :=
  {[ "name" := VStr "libfoo"; "version" := VStr "2.0" ]}.

(** The end-to-end scenario of the specification. *)
Definition libA1 : record :=
  {[ "name" := VStr "libA"; "version" := VStr "1.0";
     "licensedeclared" := NOASSERTION ]}.
Definition libA2 : record :=
  {[ "name" := VStr "libA"; "version" := VStr "1.0";
     "licensedeclared" := VStr "MIT" ]}.

(** A package that depends on itself, and two that depend on each other. *)
Definition pkgX : record := {[ "name" := VStr "x" ]}.
Definition pkgY : record := {[ "name" := VStr "y" ]}.
Definition relXX : relationship :=
  Relationship (VStr "x") "DEPENDS_ON" (VStr "x") None None.
Definition relXY : relationship :=
  Relationship (VStr "x") "DEPENDS_ON" (VStr "y") None None.

Definition root : string := root_package_name "one.spdx" "two.spdx".
Definition empty : document := Document [] [] [].
Definition docXY : document := Document [fileB] [pkgX; pkgY] [relXY].
Definition docA : document := Document [] [libA2] [].

(** The collaborators of [main] on two inputs that exist. *)
Definition path_exists (f : string) : bool :=
  bool_decide (f = "one.spdx" ∨ f = "two.spdx").
Definition path_name (f : string) : string := f.
Definition parse_file (f : string) : document :=
  if decide (f = "one.spdx") then Document [fileA] [] []
  else Document [fileB] [] [].
End Scenarios.

(** Closed decidable facts about the inputs above are settled by running
    their decision procedure. *)
Ltac by_evaluation :=
  match goal with
  | |- ?l = ?r => vm_cast_no_check (@eq_refl _ r)
  end.

Ltac by_decision :=
  match goal with
  | |- ¬ ?P => apply (proj1 (bool_decide_eq_false P)); vm_compute; reflexivity
  | |- ?P => apply (bool_decide_unpack P); vm_compute; exact I
  end.

(** * Properties *)

(** ** The loops *)

Lemma for_each_app {A S : Type} (body : A → S → option S) (l1 l2 : list A) (s : S) :
  for_each body (l1 ++ l2) s = for_each body l1 s ≫= for_each body l2.
Proof.
  revert s. induction l1 as [|x l1 IH]; intros s; simpl; [done|].
  destruct (body x s) as [s'|]; simpl; [apply IH|done].
Qed.

(** A loop whose body cannot raise is a left fold. *)
Lemma for_each_total {A S : Type} (body : A → S → option S) (f : S → A → S)
    (l : list A) (s : S) :
  (∀ x s', x ∈ l → body x s' = Some (f s' x)) →
  for_each body l s = Some (foldl f s l).
Proof.
  revert s. induction l as [|x l IH]; intros s Hbody; simpl; [done|].
  rewrite Hbody by left. simpl. apply IH.
  intros y s' Hy. apply Hbody. by right.
Qed.

(** A loop invariant: what holds before the loop and is kept by every
    iteration holds after it. *)
Lemma for_each_invariant {A S : Type} (body : A → S → option S) (I : S → Prop)
    (l : list A) (s s' : S) :
  (∀ x t t', x ∈ l → I t → body x t = Some t' → I t') →
  I s → for_each body l s = Some s' → I s'.
Proof.
  revert s. induction l as [|x l IH]; intros s Hstep Hs Hrun; simpl in Hrun.
  - by simplify_eq.
  - destruct (body x s) as [t|] eqn:Hx; simpl in Hrun; [|done].
    apply (IH t); [|by eapply Hstep; [left| |]|done].
    intros y u u' Hy. apply Hstep. by right.
Qed.

(** ** The Attribute Reconciler *)

Section reconcile_loops.
Implicit Types (l : list (string * value)) (sbom file : record).

Lemma reconcile_param_fst file2 sbom c k p1 :
  (reconcile_param file2 (sbom, c) (k, p1)).1
  = set_value k (resolve_value p1 (file2 !! k)) sbom.
Proof.
  unfold reconcile_param, resolve_value.
  destruct (file2 !! k) as [p2|]; [|done].
  by destruct (decide (p1 = p2)).
Qed.

Lemma foldl_reconcile_param_notin l file2 sbom c k :
  k ∉ l.*1 →
  (foldl (reconcile_param file2) (sbom, c) l).1 !! k = sbom !! k.
Proof.
  revert sbom c. induction l as [|[k' p] l IH]; intros sbom c Hk; [done|].
  rewrite fmap_cons in Hk. apply not_elem_of_cons in Hk as [Hne Hk].
  cbn [foldl].
  pose proof (reconcile_param_fst file2 sbom c k' p) as E.
  destruct (reconcile_param file2 (sbom, c) (k', p)) as [sbom' c'].
  simpl in E. subst sbom'. rewrite IH by done.
  unfold set_value. by rewrite lookup_insert_ne.
Qed.

Lemma foldl_reconcile_param_in l file2 sbom c k p1 :
  NoDup l.*1 → (k, p1) ∈ l →
  (foldl (reconcile_param file2) (sbom, c) l).1 !! k
  = Some (resolve_value p1 (file2 !! k)).
Proof.
  revert sbom c. induction l as [|[k' p] l IH]; intros sbom c Hnd Hin.
  - by apply elem_of_nil in Hin.
  - rewrite fmap_cons in Hnd. apply NoDup_cons in Hnd as [Hk' Hnd].
    cbn [foldl].
    pose proof (reconcile_param_fst file2 sbom c k' p) as E.
    destruct (reconcile_param file2 (sbom, c) (k', p)) as [sbom' c'].
    simpl in E. subst sbom'.
    apply elem_of_cons in Hin as [Heq|Hin].
    + simplify_eq. rewrite foldl_reconcile_param_notin by done.
      unfold set_value. by rewrite lookup_insert_eq.
    + by apply IH.
Qed.

Lemma reconcile_param_snd (file2 : record) sbom c k p1 :
  (reconcile_param file2 (sbom, c) (k, p1)).2
  = match file2 !! k with
    | Some p2 => if decide (p1 = p2) then incr_identical c else incr_updated c
    | None => incr_additional c
    end.
Proof.
  unfold reconcile_param. destruct (file2 !! k) as [p2|]; [|done].
  by destruct (decide (p1 = p2)).
Qed.

Lemma foldl_reconcile_param_counters l (file2 : record) sbom c :
  (foldl (reconcile_param file2) (sbom, c) l).2
  = Counters (updated_info c + length (filter (updated_attr file2) l))
             (identical_info c + length (filter (identical_attr file2) l))
             (additional_info c + length (filter (additional_attr file2) l))
             (merged_info c).
Proof.
  revert sbom c. induction l as [|[k p] l IH]; intros sbom c.
  - simpl. destruct c; simpl. f_equal; lia.
  - cbn [foldl].
    pose proof (reconcile_param_snd file2 sbom c k p) as E.
    destruct (reconcile_param file2 (sbom, c) (k, p)) as [sbom' c'].
    simpl in E. subst c'. rewrite IH, !filter_cons.
    repeat case_decide;
      unfold updated_attr, identical_attr, additional_attr in *;
      simpl in *; destruct (file2 !! k) as [p2|]; try done;
      try case_decide; try done; simpl; f_equal; lia.
Qed.

Lemma foldl_add_new_param_present l file sbom k :
  is_Some (file !! k) → foldl (add_new_param file) sbom l !! k = sbom !! k.
Proof.
  intros [p1 Hp1]. revert sbom.
  induction l as [|[k' p] l IH]; intros sbom; [done|].
  cbn [foldl]. rewrite IH. unfold add_new_param. simpl.
  destruct (file !! k') eqn:Hk'; [done|].
  unfold set_value. rewrite lookup_insert_ne; [done|congruence].
Qed.

Lemma foldl_add_new_param_notin l file sbom k :
  k ∉ l.*1 → foldl (add_new_param file) sbom l !! k = sbom !! k.
Proof.
  revert sbom. induction l as [|[k' p] l IH]; intros sbom Hk; [done|].
  rewrite fmap_cons in Hk. apply not_elem_of_cons in Hk as [Hne Hk].
  cbn [foldl]. rewrite IH by done. unfold add_new_param. simpl.
  destruct (file !! k'); [done|].
  unfold set_value. by rewrite lookup_insert_ne.
Qed.

Lemma foldl_add_new_param_new l file sbom k p2 :
  file !! k = None → NoDup l.*1 → (k, p2) ∈ l →
  foldl (add_new_param file) sbom l !! k = Some p2.
Proof.
  intros Hfile. revert sbom.
  induction l as [|[k' p] l IH]; intros sbom Hnd Hin.
  - by apply elem_of_nil in Hin.
  - rewrite fmap_cons in Hnd. apply NoDup_cons in Hnd as [Hk' Hnd].
    cbn [foldl]. apply elem_of_cons in Hin as [Heq|Hin].
    + simplify_eq. rewrite foldl_add_new_param_notin by done.
      unfold add_new_param. simpl. rewrite Hfile.
      unfold set_value. by rewrite lookup_insert_eq.
    + by apply IH.
Qed.

Lemma length_filter_map_to_list (P : string * value → Prop)
    `{!∀ kv, Decision (P kv)} file :
  length (filter P (map_to_list file)) = size (filter P file).
Proof.
  rewrite (map_filter_alt P file), <-length_map_to_list.
  symmetry. apply Permutation_length, map_to_list_to_map.
  eapply sublist_NoDup; [apply (NoDup_fst_map_to_list file)|].
  apply fmap_sublist, sublist_filter.
Qed.
End reconcile_loops.

(** The merged record, attribute by attribute. *)
Lemma reconcile_lookup (file file2 sbom : record) (c : counters) (k : string) :
  (reconcile file file2 (sbom, c)).1 !! k
  = match file !! k with
    | Some p1 => Some (resolve_value p1 (file2 !! k))
    | None => match file2 !! k with Some p2 => Some p2 | None => sbom !! k end
    end.
Proof.
  unfold reconcile.
  pose proof (foldl_reconcile_param_notin (map_to_list file) file2 sbom c k) as Hout.
  pose proof (foldl_reconcile_param_in (map_to_list file) file2 sbom c k) as Hin.
  destruct (foldl (reconcile_param file2) (sbom, c) (map_to_list file))
    as [sbom1 c1]. simpl in *.
  destruct (file !! k) as [p1|] eqn:Hk.
  - rewrite foldl_add_new_param_present by (by rewrite Hk).
    apply Hin; [apply NoDup_fst_map_to_list|by apply elem_of_map_to_list].
  - assert (k ∉ (map_to_list file).*1) as Hnot.
    { intros [[k' p] [-> Hel]]%list_elem_of_fmap. simpl in Hk.
      apply elem_of_map_to_list in Hel. congruence. }
    destruct (file2 !! k) as [p2|] eqn:Hk2.
    + apply foldl_add_new_param_new;
        [done|apply NoDup_fst_map_to_list|by apply elem_of_map_to_list].
    + rewrite foldl_add_new_param_notin; [by apply Hout|].
      intros [[k' p] [-> Hel]]%list_elem_of_fmap. simpl in Hk2.
      apply elem_of_map_to_list in Hel. congruence.
Qed.

(** The counters after one reconciliation: each attribute of the first
    record is counted once, in the class it falls in. *)
Lemma reconcile_counters (file file2 sbom : record) (c : counters) :
  (reconcile file file2 (sbom, c)).2
  = Counters (updated_info c + size (filter (updated_attr file2) file))
             (identical_info c + size (filter (identical_attr file2) file))
             (additional_info c + size (filter (additional_attr file2) file))
             (merged_info c).
Proof.
  unfold reconcile.
  pose proof (foldl_reconcile_param_counters (map_to_list file) file2 sbom c) as E.
  destruct (foldl (reconcile_param file2) (sbom, c) (map_to_list file))
    as [sbom1 c1]. simpl in *. subst c1.
  by rewrite !length_filter_map_to_list.
Qed.

(** Copying a record into a builder overwrites the attributes it has. *)
Lemma copy_record_lookup (r sbom : record) (k : string) :
  copy_record r sbom !! k
  = match r !! k with Some v => Some v | None => sbom !! k end.
Proof.
  unfold copy_record.
  assert (∀ (l : list (string * value)) (acc : record),
    NoDup l.*1 →
    foldl (λ acc kv, set_value kv.1 kv.2 acc) acc l !! k
    = match list_to_map (M := record) l !! k with
      | Some v => Some v | None => acc !! k end) as Hfold.
  { induction l as [|[k' v] l IH]; intros acc Hnd; [done|].
    rewrite fmap_cons in Hnd. apply NoDup_cons in Hnd as [Hk' Hnd].
    cbn [foldl list_to_map foldr]. rewrite IH by done. simpl.
    unfold set_value. destruct (decide (k' = k)) as [->|Hne].
    - rewrite lookup_insert_eq.
      rewrite (not_elem_of_list_to_map_1 (M := gmap string)) by done.
      by rewrite lookup_insert_eq.
    - by rewrite !lookup_insert_ne. }
  rewrite Hfold by apply NoDup_fst_map_to_list.
  by rewrite list_to_map_to_list.
Qed.

(** [copy_file] and [copy_package] on a fresh builder: a verbatim copy. *)
Lemma copy_record_initialise (r : record) : copy_record r initialise = r.
Proof.
  apply map_eq. intros k. rewrite copy_record_lookup.
  unfold initialise. rewrite lookup_empty. by destruct (r !! k).
Qed.

(** The attributes of the merged record: those of the builder and of the
    two records. *)
Lemma reconcile_dom (file file2 sbom : record) (c : counters) :
  dom (reconcile file file2 (sbom, c)).1 = dom sbom ∪ dom file ∪ dom file2.
Proof.
  apply set_eq. intros k.
  rewrite !elem_of_union, !elem_of_dom, reconcile_lookup.
  destruct (file !! k) as [p1|], (file2 !! k) as [p2|];
    rewrite <-?not_eq_None_Some; naive_solver.
Qed.

(** Which attributes the updated counter counts. *)
Lemma updated_attr_lookup (file file2 : record) (param : string) (p1 : value) :
  filter (updated_attr file2) file !! param = Some p1
  ↔ file !! param = Some p1 ∧ ∃ p2, file2 !! param = Some p2 ∧ p1 ≠ p2.
Proof.
  rewrite map_lookup_filter_Some. unfold updated_attr. simpl.
  destruct (file2 !! param) as [p2|]; naive_solver.
Qed.

(** ** Insertion-ordered dictionaries *)

Section odict_facts.
Context {K V : Type} `{EqDecision K}.
Implicit Types (d : odict K V) (k : K) (v : V).

Lemma keys_set d k v :
  OrderedDict.keys (OrderedDict.set k v d)
  = if decide (k ∈ OrderedDict.keys d) then OrderedDict.keys d
    else OrderedDict.keys d ++ [k].
Proof.
  unfold OrderedDict.keys. induction d as [|[k' v'] d IH]; [done|].
  cbn [OrderedDict.set]. destruct (decide (k' = k)) as [->|Hne]; csimpl.
  - by rewrite decide_True by left.
  - rewrite IH. destruct (decide (k ∈ d.*1)) as [Hin|Hnin].
    + by rewrite decide_True by by right.
    + rewrite decide_False; [done|].
      intros [?|?]%elem_of_cons; congruence.
Qed.

Lemma elem_of_keys_set d k v k' :
  k' ∈ OrderedDict.keys (OrderedDict.set k v d)
  ↔ k' = k ∨ k' ∈ OrderedDict.keys d.
Proof.
  rewrite keys_set. case_decide as Hk.
  - naive_solver.
  - rewrite elem_of_app, list_elem_of_singleton. naive_solver.
Qed.

Lemma NoDup_keys_set d k v :
  NoDup (OrderedDict.keys d) → NoDup (OrderedDict.keys (OrderedDict.set k v d)).
Proof.
  intros Hnd. rewrite keys_set. case_decide as Hk; [done|].
  apply NoDup_app. split_and!; [done| |apply NoDup_singleton].
  intros x Hx ->%list_elem_of_singleton. done.
Qed.

Lemma get_set_eq d k v : OrderedDict.get k (OrderedDict.set k v d) = Some v.
Proof.
  induction d as [|[k' v'] d IH]; simpl.
  - by rewrite decide_True.
  - destruct (decide (k' = k)) as [->|Hne]; simpl.
    + by rewrite decide_True.
    + by rewrite decide_False.
Qed.

Lemma get_set_ne d k v k' :
  k ≠ k' → OrderedDict.get k' (OrderedDict.set k v d) = OrderedDict.get k' d.
Proof.
  intros Hne. induction d as [|[k0 v0] d IH]; simpl.
  - by rewrite decide_False.
  - destruct (decide (k0 = k)) as [->|Hne0]; simpl.
    + by rewrite !decide_False.
    + by rewrite IH.
Qed.

Lemma get_is_Some d k : is_Some (OrderedDict.get k d) ↔ k ∈ OrderedDict.keys d.
Proof.
  unfold OrderedDict.keys. induction d as [|[k' v'] d IH]; simpl.
  - rewrite elem_of_nil. split; [by intros [? ?]|done].
  - rewrite elem_of_cons.
    destruct (decide (k' = k)) as [->|Hne]; [naive_solver|].
    rewrite IH. naive_solver.
Qed.
End odict_facts.

(** ** Matching by name *)

Lemma merge_file_match_named (file file2 : record) (st : record * counters) :
  has_name file → has_name file2 →
  merge_file_match file file2 st
  = Some (if decide (same_name file file2) then reconcile file file2 st else st).
Proof.
  intros [n1 H1] [n2 H2]. unfold merge_file_match, getitem.
  rewrite H1, H2. simpl.
  destruct (decide (same_name file file2)) as [Hs|Hs];
    unfold same_name in Hs; rewrite H1, H2 in Hs.
  - simplify_eq. by rewrite decide_True.
  - rewrite decide_False; [done|congruence].
Qed.

Lemma merge_package_match_named (package package2 : record) (sbom : record)
    (c : counters) (log : list string) :
  has_name package → has_name package2 →
  merge_package_match package package2 (sbom, c, log)
  = Some (if decide (same_name package package2) then
            if decide (version_conflict package package2)
            then (sbom, c, log ++ [veto_message package package2])
            else (reconcile package package2 (sbom, c), log)
          else (sbom, c, log)).
Proof.
  intros [n1 H1] [n2 H2].
  unfold merge_package_match, getitem, veto_message, get_name, get_value.
  rewrite H1, H2. simpl.
  destruct (decide (same_name package package2)) as [Hs|Hs];
    unfold same_name in Hs; rewrite H1, H2 in Hs.
  - simplify_eq. rewrite decide_True by done.
    destruct (decide (version_conflict package package2)) as [Hv|Hv];
      unfold version_conflict in Hv;
      destruct (package !! "version") as [v1|], (package2 !! "version") as [v2|];
      simpl; try done; try (by destruct (reconcile package package2 (sbom, c))).
    + by rewrite decide_True.
    + rewrite decide_False by done.
      by destruct (reconcile package package2 (sbom, c)).
  - rewrite decide_False; [done|congruence].
Qed.

(** Reconciling with a record of the same name keeps the name. *)
Lemma reconcile_name (file file2 sbom : record) (c : counters) (n : value) :
  file !! "name" = Some n → file2 !! "name" = Some n →
  (reconcile file file2 (sbom, c)).1 !! "name" = Some n.
Proof.
  intros H1 H2. rewrite reconcile_lookup, H1, H2. simpl.
  by rewrite decide_True.
Qed.

(** The pairing loops: every entity of the second document with the name
    of [file] is reconciled, in the order of the document, into the same
    builder. *)
Lemma pair_all_files (file : record) (files2 : list record)
    (st : record * counters) :
  has_name file → Forall has_name files2 →
  for_each (merge_file_match file) files2 st
  = Some (foldl (λ st g, reconcile file g st) st
            (filter (same_name file) files2)).
Proof.
  intros Hfile Hall. revert st.
  induction Hall as [|g files2 Hg Hall IH]; intros st; [done|].
  cbn [for_each]. rewrite merge_file_match_named by done. simpl.
  rewrite IH, filter_cons. by destruct (decide (same_name file g)).
Qed.

Lemma pair_all_packages (package : record) (packages2 : list record)
    (sbom : record) (c : counters) (log : list string) :
  has_name package → Forall has_name packages2 →
  for_each (merge_package_match package) packages2 (sbom, c, log)
  = Some (foldl (λ st g, reconcile package g st) (sbom, c)
            (filter (λ g, same_name package g ∧ ¬ version_conflict package g)
               packages2),
          log ++ (veto_message package <$>
                  filter (λ g, same_name package g ∧ version_conflict package g)
                    packages2)).
Proof.
  intros Hpackage Hall. revert sbom c log.
  induction Hall as [|g packages2 Hg Hall IH]; intros sbom c log.
  { simpl. by rewrite app_nil_r. }
  cbn [for_each]. rewrite merge_package_match_named by done. simpl.
  rewrite !filter_cons.
  destruct (decide (same_name package g)) as [Hs|Hs].
  - destruct (decide (version_conflict package g)) as [Hv|Hv].
    + rewrite IH. rewrite decide_False by tauto. rewrite decide_True by tauto.
      csimpl. by rewrite <-app_assoc.
    + destruct (reconcile package g (sbom, c)) as [sbom' c'] eqn:E.
      rewrite IH. rewrite decide_True by tauto. rewrite decide_False by tauto.
      simpl. by rewrite E.
  - rewrite IH. by rewrite !decide_False by tauto.
Qed.

(** One iteration keeps the name of the builder, and pairing a record with
    itself sets it. *)
Lemma merge_file_match_keeps_name (file g : record) (st st' : record * counters)
    (n : value) :
  file !! "name" = Some n → st.1 !! "name" = Some n →
  merge_file_match file g st = Some st' → st'.1 !! "name" = Some n.
Proof.
  intros Hn Hst. unfold merge_file_match, getitem. rewrite Hn.
  destruct (g !! "name") as [n2|] eqn:Hg; simpl; [|done].
  destruct (decide (n2 = n)) as [->|Hne]; intros; simplify_eq; [|done].
  destruct st. by apply reconcile_name.
Qed.

Lemma merge_file_match_self (file : record) (st : record * counters) (n : value) :
  file !! "name" = Some n →
  ∃ st', merge_file_match file file st = Some st' ∧ st'.1 !! "name" = Some n.
Proof.
  intros Hn. unfold merge_file_match, getitem. rewrite Hn. simpl.
  rewrite decide_True by done. eexists. split; [done|].
  destruct st. by apply reconcile_name.
Qed.

Lemma for_each_match_name (file : record) (files2 : list record)
    (st st' : record * counters) (n : value) :
  file ∈ files2 → file !! "name" = Some n →
  for_each (merge_file_match file) files2 st = Some st' →
  st'.1 !! "name" = Some n.
Proof.
  intros (l1 & l2 & ->)%list_elem_of_split Hn.
  rewrite for_each_app.
  destruct (for_each (merge_file_match file) l1 st) as [st1|]; [|done].
  simpl. destruct (merge_file_match_self file st1 n Hn) as (st2 & -> & Hst2).
  simpl. intros Hrun.
  eapply (for_each_invariant _ (λ t, t.1 !! "name" = Some n)); [|done|exact Hrun].
  intros g t t' _. by apply merge_file_match_keeps_name.
Qed.

Lemma merge_package_match_keeps_name (package g : record)
    (st st' : package_acc) (n : value) :
  package !! "name" = Some n → st.1.1 !! "name" = Some n →
  merge_package_match package g st = Some st' → st'.1.1 !! "name" = Some n.
Proof.
  intros Hn Hst. destruct st as [[sbom c] log].
  unfold merge_package_match, getitem. rewrite Hn.
  destruct (g !! "name") as [n2|] eqn:Hg; simpl; [|done].
  destruct (decide (n2 = n)) as [->|Hne]; [|by intros; simplify_eq].
  pose proof (reconcile_name package g sbom c n Hn Hg) as Hrec.
  destruct (reconcile package g (sbom, c)) as [sbom' c'].
  destruct (package !! "version") as [v1|], (g !! "version") as [v2|];
    try (by intros; simplify_eq).
  destruct (decide (v1 ≠ v2)); by intros; simplify_eq.
Qed.

Lemma merge_package_match_self (package : record) (st : package_acc) (n : value) :
  package !! "name" = Some n →
  ∃ st', merge_package_match package package st = Some st'
         ∧ st'.1.1 !! "name" = Some n.
Proof.
  intros Hn. destruct st as [[sbom c] log].
  unfold merge_package_match, getitem. rewrite Hn. simpl.
  rewrite decide_True by done.
  pose proof (reconcile_name package package sbom c n Hn Hn) as Hrec.
  destruct (reconcile package package (sbom, c)) as [sbom' c'].
  destruct (package !! "version") as [v1|]; [|by eexists].
  rewrite decide_False by (intros H; by apply H). by eexists.
Qed.

Lemma for_each_package_match_name (package : record) (packages2 : list record)
    (st st' : package_acc) (n : value) :
  package ∈ packages2 → package !! "name" = Some n →
  for_each (merge_package_match package) packages2 st = Some st' →
  st'.1.1 !! "name" = Some n.
Proof.
  intros (l1 & l2 & ->)%list_elem_of_split Hn.
  rewrite for_each_app.
  destruct (for_each (merge_package_match package) l1 st) as [st1|]; [|done].
  simpl. destruct (merge_package_match_self package st1 n Hn) as (st2 & -> & Hst2).
  simpl. intros Hrun.
  eapply (for_each_invariant _ (λ t, t.1.1 !! "name" = Some n));
    [|done|exact Hrun].
  intros g t t' _. by apply merge_package_match_keeps_name.
Qed.

(** ** The merged file mapping *)

Lemma get_name_Some (r : record) (n : value) :
  r !! "name" = Some n → get_name r = n.
Proof. unfold get_name, get_value. by intros ->. Qed.

(** What one iteration of the first file loop stores. *)
Lemma process_file1_stores (files2 : list record) (file : record)
    (files files' : files_dict) (c c' : counters) :
  process_file1 files2 file (files, c) = Some (files', c') →
  ∃ sbom_file, files' = OrderedDict.set (get_name sbom_file) sbom_file files
    ∧ ∀ n, file !! "name" = Some n → get_name sbom_file = n.
Proof.
  unfold process_file1. destruct (decide (file ∈ files2)) as [Hin|Hnin].
  - destruct (for_each (merge_file_match file) files2 (initialise, c))
      as [[sbom_file c1]|] eqn:Hloop; simpl; [|done].
    intros; simplify_eq. exists sbom_file. split; [done|].
    intros n Hn. apply get_name_Some.
    by apply (for_each_match_name file files2 _ _ n Hin Hn Hloop).
  - unfold getitem. destruct (file !! "name") as [n|] eqn:Hn; simpl; [|done].
    intros; simplify_eq. exists file. rewrite copy_record_initialise.
    split; [done|]. intros n' ?; simplify_eq. by apply get_name_Some.
Qed.

(** What one iteration of the second file loop stores. *)
Lemma process_file2_stores (files1 : list record) (file : record)
    (files files' : files_dict) (c c' : counters) :
  process_file2 files1 file (files, c) = Some (files', c') →
  (file ∈ files1 ∧ files' = files)
  ∨ files' = OrderedDict.set (get_name file) file files.
Proof.
  unfold process_file2. rewrite copy_record_initialise.
  destruct (decide (0 < length files1)).
  - destruct (decide (file ∉ files1)) as [Hnin|Hin].
    + destruct (getitem "name" file); simpl; [|done].
      intros; simplify_eq. by right.
    + intros; simplify_eq. left. split; [|done]. by apply dec_stable.
  - intros; simplify_eq. by right.
Qed.

Lemma files1_loop_keys (files2 l : list record) (st st' : files_dict * counters) :
  for_each (process_file1 files2) l st = Some st' →
  (∀ k, k ∈ OrderedDict.keys st.1 → k ∈ OrderedDict.keys st'.1)
  ∧ (∀ f n, f ∈ l → f !! "name" = Some n → n ∈ OrderedDict.keys st'.1).
Proof.
  revert st. induction l as [|file l IH]; intros [files c] Hrun; cbn [for_each] in Hrun.
  - simplify_eq. split; [done|]. intros f n Hf. by apply elem_of_nil in Hf.
  - destruct (process_file1 files2 file (files, c)) as [[files' c1]|] eqn:Hstep;
      simpl in Hrun; [|done].
    apply process_file1_stores in Hstep as (sbom_file & -> & Hname).
    apply IH in Hrun as [Hmono Hnew]. simpl in *. split.
    + intros k Hk. apply Hmono, elem_of_keys_set. by right.
    + intros f n [->|Hf]%elem_of_cons Hn; [|by eapply Hnew].
      apply Hmono, elem_of_keys_set. left. symmetry. by apply Hname.
Qed.

Lemma files2_loop_keys (files1 l : list record) (st st' : files_dict * counters) :
  for_each (process_file2 files1) l st = Some st' →
  (∀ k, k ∈ OrderedDict.keys st.1 → k ∈ OrderedDict.keys st'.1)
  ∧ (∀ f, f ∈ l → f ∈ files1 ∨ get_name f ∈ OrderedDict.keys st'.1).
Proof.
  revert st. induction l as [|file l IH]; intros [files c] Hrun; cbn [for_each] in Hrun.
  - simplify_eq. split; [done|]. intros f Hf. by apply elem_of_nil in Hf.
  - destruct (process_file2 files1 file (files, c)) as [[files' c1]|] eqn:Hstep;
      simpl in Hrun; [|done].
    apply IH in Hrun as [Hmono Hnew]. simpl in *.
    apply process_file2_stores in Hstep as [[Hin ->]| ->]; split.
    + done.
    + intros f [->|Hf]%elem_of_cons; [by left|by apply Hnew].
    + intros k Hk. apply Hmono, elem_of_keys_set. by right.
    + intros f [->|Hf]%elem_of_cons; [|by apply Hnew].
      right. apply Hmono, elem_of_keys_set. by left.
Qed.

(** Every named file of either document has an entry under its name. *)
Lemma merge_files_keys (files1 files2 : list record) (c c' : counters)
    (files : files_dict) :
  merge_files files1 files2 c = Some (files, c') →
  ∀ f n, f ∈ files1 ++ files2 → f !! "name" = Some n →
         n ∈ OrderedDict.keys files.
Proof.
  unfold merge_files.
  destruct (for_each (process_file1 files2) files1 ([], c)) as [st1|] eqn:H1;
    simpl; [|done].
  intros H2 f n Hf Hn.
  apply files1_loop_keys in H1 as [_ Hnew1].
  apply files2_loop_keys in H2 as [Hmono2 Hnew2]. simpl in *.
  apply elem_of_app in Hf as [Hf|Hf].
  - apply Hmono2. by eapply Hnew1.
  - destruct (Hnew2 f Hf) as [Hf1|Hkey].
    + apply Hmono2. by eapply Hnew1.
    + by rewrite (get_name_Some f n Hn) in Hkey.
Qed.

(** ** The merged package mapping *)

Lemma process_package1_stores (packages2 : list record) (package : record)
    (packages packages' : packages_dict) (c c' : counters) (log log' : list string) :
  process_package1 packages2 package (packages, c, log) = Some (packages', c', log') →
  ∃ sbom_package,
    packages' = OrderedDict.set (package_key_of sbom_package) sbom_package packages
    ∧ ∀ n, package !! "name" = Some n → get_name sbom_package = n.
Proof.
  unfold process_package1. destruct (decide (package ∈ packages2)) as [Hin|Hnin].
  - destruct (for_each (merge_package_match package) packages2 (initialise, c, log))
      as [[[sbom_package c1] log1]|] eqn:Hloop; simpl; [|done].
    intros; simplify_eq. exists sbom_package. split; [done|].
    intros n Hn. apply get_name_Some.
    by apply (for_each_package_match_name package packages2 _ _ n Hin Hn Hloop).
  - unfold getitem. destruct (package !! "name") as [n|] eqn:Hn; simpl; [|done].
    intros; simplify_eq. exists package. rewrite copy_record_initialise.
    split; [done|]. intros n' ?; simplify_eq. by apply get_name_Some.
Qed.

Lemma process_package2_stores (packages1 : list record) (package : record)
    (packages packages' : packages_dict) (c c' : counters) (log log' : list string) :
  process_package2 packages1 package (packages, c, log) = Some (packages', c', log') →
  (package ∈ packages1 ∧ packages' = packages)
  ∨ packages' = OrderedDict.set (package_key_of package) package packages.
Proof.
  unfold process_package2. rewrite copy_record_initialise.
  destruct (decide (package ∉ packages1)) as [Hnin|Hin].
  - destruct (getitem "name" package); simpl; [|done].
    intros; simplify_eq. by right.
  - intros; simplify_eq. left. split; [|done]. by apply dec_stable.
Qed.

Lemma packages1_loop_keys (packages2 l : list record) (st st' : packages_state) :
  for_each (process_package1 packages2) l st = Some st' →
  (NoDup (OrderedDict.keys st.1.1) → NoDup (OrderedDict.keys st'.1.1))
  ∧ (∀ k, k ∈ OrderedDict.keys st.1.1 → k ∈ OrderedDict.keys st'.1.1)
  ∧ (∀ p n, p ∈ l → p !! "name" = Some n → n ∈ (OrderedDict.keys st'.1.1).*1).
Proof.
  revert st. induction l as [|package l IH]; intros [[packages c] log] Hrun;
    cbn [for_each] in Hrun.
  - simplify_eq. split_and!; [done..|]. intros p n Hp. by apply elem_of_nil in Hp.
  - destruct (process_package1 packages2 package (packages, c, log))
      as [[[packages' c1] log1]|] eqn:Hstep; simpl in Hrun; [|done].
    apply process_package1_stores in Hstep as (sbom_package & -> & Hname).
    apply IH in Hrun as (Hnd & Hmono & Hnew). simpl in *. split_and!.
    + intros H. by apply Hnd, NoDup_keys_set.
    + intros k Hk. apply Hmono, elem_of_keys_set. by right.
    + intros p n [->|Hp]%elem_of_cons Hn; [|by eapply Hnew].
      apply list_elem_of_fmap. exists (package_key_of sbom_package). split.
      * unfold package_key_of. simpl. symmetry. by apply Hname.
      * apply Hmono, elem_of_keys_set. by left.
Qed.

Lemma packages2_loop_keys (packages1 l : list record) (st st' : packages_state) :
  for_each (process_package2 packages1) l st = Some st' →
  (NoDup (OrderedDict.keys st.1.1) → NoDup (OrderedDict.keys st'.1.1))
  ∧ (∀ k, k ∈ OrderedDict.keys st.1.1 → k ∈ OrderedDict.keys st'.1.1)
  ∧ (∀ p, p ∈ l →
       p ∈ packages1 ∨ package_key_of p ∈ OrderedDict.keys st'.1.1).
Proof.
  revert st. induction l as [|package l IH]; intros [[packages c] log] Hrun;
    cbn [for_each] in Hrun.
  - simplify_eq. split_and!; [done..|]. intros p Hp. by apply elem_of_nil in Hp.
  - destruct (process_package2 packages1 package (packages, c, log))
      as [[[packages' c1] log1]|] eqn:Hstep; simpl in Hrun; [|done].
    apply IH in Hrun as (Hnd & Hmono & Hnew). simpl in *.
    apply process_package2_stores in Hstep as [[Hin ->]| ->]; split_and!.
    + done.
    + done.
    + intros p [->|Hp]%elem_of_cons; [by left|by apply Hnew].
    + intros H. by apply Hnd, NoDup_keys_set.
    + intros k Hk. apply Hmono, elem_of_keys_set. by right.
    + intros p [->|Hp]%elem_of_cons; [|by apply Hnew].
      right. apply Hmono, elem_of_keys_set. by left.
Qed.

(** The key of the root package: its name, and no version. *)
Lemma root_package_key (root_package : string) :
  package_key_of (root_package_record root_package) = (VStr root_package, VNone).
Proof. done. Qed.

(** The merged package mapping has the root package, an entry for the name
    of every named package of either document, and no key twice. *)
Lemma merge_packages_keys (root_package : string) (packages1 packages2 : list record)
    (c c' : counters) (packages : packages_dict) (log : list string) :
  merge_packages root_package packages1 packages2 c = Some (packages, c', log) →
  NoDup (OrderedDict.keys packages)
  ∧ (VStr root_package, VNone) ∈ OrderedDict.keys packages
  ∧ ∀ p n, p ∈ packages1 ++ packages2 → p !! "name" = Some n →
           n ∈ (OrderedDict.keys packages).*1.
Proof.
  unfold merge_packages. rewrite root_package_key. cbn [OrderedDict.set].
  destruct (for_each (process_package1 packages2) packages1 _) as [st1|] eqn:H1;
    simpl; [|done].
  intros H2.
  apply packages1_loop_keys in H1 as (Hnd1 & Hmono1 & Hnew1).
  apply packages2_loop_keys in H2 as (Hnd2 & Hmono2 & Hnew2). simpl in *.
  split_and!.
  - apply Hnd2, Hnd1. apply NoDup_singleton.
  - apply Hmono2, Hmono1. by left.
  - intros p n Hp Hn. apply elem_of_app in Hp as [Hp|Hp].
    + destruct (proj1 (list_elem_of_fmap _ _ _) (Hnew1 p n Hp Hn))
        as (k & -> & Hk).
      apply list_elem_of_fmap. exists k. split; [done|]. by apply Hmono2.
    + destruct (Hnew2 p Hp) as [Hp1|Hkey].
      * destruct (proj1 (list_elem_of_fmap _ _ _) (Hnew1 p n Hp1 Hn))
          as (k & -> & Hk).
        apply list_elem_of_fmap. exists k. split; [done|]. by apply Hmono2.
      * apply list_elem_of_fmap. exists (package_key_of p). split; [|done].
        unfold package_key_of. simpl. symmetry. by apply get_name_Some.
Qed.

(** ** The rebuilt relationships *)

Lemma resolve_file_step (r : relationship) (f : record) (st st' : endpoints) :
  resolve_file r f st = Some st' → scan_step r f st st'.
Proof.
  destruct st as [[[s t] sty] tty]. unfold resolve_file, getitem, scan_step.
  destruct (f !! "name") as [n|]; simpl; [|done].
  intros Hstep. exists n. split; [done|].
  repeat case_decide; by simplify_eq.
Qed.

Lemma resolve_package_step (r : relationship) (p : record) (st st' : endpoints) :
  resolve_package r p st = Some st' → scan_step r p st st'.
Proof.
  destruct st as [[[s t] sty] tty]. unfold resolve_package, getitem, scan_step.
  destruct (p !! "name") as [n|]; simpl; [|done].
  intros Hstep. exists n. split; [done|].
  repeat case_decide; by simplify_eq.
Qed.

(** A scan over any list of records: the source is found when some record
    bears its name; the target when some record bears its name and that
    name is not the source's, since the target is only looked at in the
    [elif] branch. *)
Lemma scan_loop (r : relationship) (body : record → endpoints → option endpoints)
    (l : list record) (st st' : endpoints) :
  (∀ f t t', body f t = Some t' → scan_step r f t t') →
  for_each body l st = Some st' →
  st'.1.1.1 = (if decide (named_in (rel_source r) l)
               then rel_source r else st.1.1.1)
  ∧ st'.1.1.2 = (if decide (rel_source r ≠ rel_target r
                            ∧ named_in (rel_target r) l)
                 then rel_target r else st.1.1.2).
Proof.
  intros Hbody. unfold named_in. revert st.
  induction l as [|f l IH]; intros st Hrun; cbn [for_each] in Hrun.
  - simplify_eq. simpl. split; repeat case_decide; try done.
    destruct H as [_ H]. by apply Exists_nil in H.
  - destruct (body f st) as [st1|] eqn:Hstep; simpl in Hrun; [|done].
    apply Hbody in Hstep as (n & Hf & Hs & Ht).
    assert (∀ m, Exists (λ f, f !! "name" = Some m) (f :: l)
                 ↔ n = m ∨ Exists (λ f, f !! "name" = Some m) l) as Hcons.
    { intros m. rewrite Exists_cons, Hf. naive_solver. }
    apply IH in Hrun as [-> ->]. rewrite Hs, Ht.
    split; repeat case_decide; try done; exfalso;
      rewrite ?Hcons in *; naive_solver.
Qed.

(** The endpoints found for a relationship of a document. *)
Lemma resolve_found (files packages : list record) (r : relationship)
    (st : endpoints) :
  resolve files packages r = Some st →
  st.1.1.1 = (if decide (named_in (rel_source r) (files ++ packages))
              then rel_source r else VNone)
  ∧ st.1.1.2 = (if decide (rel_source r ≠ rel_target r
                           ∧ named_in (rel_target r) (files ++ packages))
                then rel_target r else VNone).
Proof.
  unfold resolve.
  destruct (for_each (resolve_file r) files _) as [st1|] eqn:H1; simpl; [|done].
  intros H2.
  apply (scan_loop r _ _ _ _ (resolve_file_step r)) in H1 as [Hs1 Ht1].
  apply (scan_loop r _ _ _ _ (resolve_package_step r)) in H2 as [-> ->].
  rewrite Hs1, Ht1. simpl. unfold named_in.
  split; repeat case_decide; try done; exfalso;
    rewrite ?Exists_app in *; naive_solver.
Qed.

Lemma rebuild_relationship_rebuilt (files packages : list record)
    (r : relationship) (relationships out : list relationship) :
  rebuild_relationship files packages r relationships = Some out →
  out = relationships ++ rebuilt files packages r.
Proof.
  unfold rebuild_relationship, rebuilt.
  destruct (resolve files packages r) as [[[[s t] sty] tty]|]; simpl; [|done].
  case_decide; intros; simplify_eq; [done|by rewrite app_nil_r].
Qed.

Lemma rebuild_loop_rebuilt (files packages : list record)
    (rs : list relationship) (relationships out : list relationship) :
  for_each (rebuild_relationship files packages) rs relationships = Some out →
  out = relationships ++ (rs ≫= rebuilt files packages).
Proof.
  revert relationships.
  induction rs as [|r rs IH]; intros relationships Hrun; cbn [for_each] in Hrun.
  - simplify_eq. by rewrite app_nil_r.
  - destruct (rebuild_relationship files packages r relationships)
      as [rels1|] eqn:Hstep; simpl in Hrun; [|done].
    apply rebuild_relationship_rebuilt in Hstep as ->.
    apply IH in Hrun as ->. by rewrite <-app_assoc.
Qed.

(** A rebuilt edge keeps the triple of the relationship it comes from, and
    both its endpoints resolve in the document of that relationship. *)
Lemma rebuilt_edge (files packages : list record) (r e : relationship) :
  e ∈ rebuilt files packages r →
  rel_source e = rel_source r ∧ rel_type e = rel_type r
  ∧ rel_target e = rel_target r
  ∧ resolves files packages (rel_source r)
  ∧ resolves files packages (rel_target r).
Proof.
  unfold rebuilt, resolves.
  destruct (resolve files packages r) as [[[[s t] sty] tty]|] eqn:Hres;
    [|by intros ?%elem_of_nil].
  apply resolve_found in Hres as [Hs Ht]. simpl in *.
  destruct (decide (s ≠ VNone ∧ t ≠ VNone)) as [[Hsn Htn]|Hno];
    [|by intros ?%elem_of_nil].
  intros ->%list_elem_of_singleton. simpl.
  repeat case_decide; simplify_eq; naive_solver.
Qed.

(** A relationship between two different names is rebuilt exactly when
    both resolve. *)
Lemma rebuilt_distinct (files packages : list record) (r : relationship) :
  is_Some (resolve files packages r) →
  rel_source r ≠ rel_target r →
  (∃ e, rebuilt files packages r = [e])
  ↔ resolves files packages (rel_source r)
    ∧ resolves files packages (rel_target r).
Proof.
  intros [[[[s t] sty] tty] Hres] Hne. split.
  - intros [e He]. assert (e ∈ rebuilt files packages r) as Hin
      by (rewrite He; by left).
    apply rebuilt_edge in Hin. tauto.
  - unfold rebuilt, resolves. rewrite Hres.
    apply resolve_found in Hres as [Hs Ht]. simpl in *.
    intros [[Hsn Hsin] [Htn Htin]].
    rewrite decide_True in Hs by done. rewrite decide_True in Ht by done.
    subst. rewrite decide_True by done. by eexists.
Qed.

(** A relationship from a name to itself is never rebuilt: its target is
    only looked for on the records that do not bear the source's name. *)
Lemma rebuilt_self (files packages : list record) (r : relationship) :
  rel_source r = rel_target r → rebuilt files packages r = [].
Proof.
  intros Heq. unfold rebuilt.
  destruct (resolve files packages r) as [[[[s t] sty] tty]|] eqn:Hres; [|done].
  apply resolve_found in Hres as [Hs Ht]. simpl in *.
  rewrite decide_False in Ht by tauto. subst t.
  rewrite decide_False; [done|tauto].
Qed.

(** The [CONTAINS] edges: one for each key of the package mapping, in the
    order of the mapping. *)
Lemma add_contains_keys (root_package : string) (packages : packages_dict)
    (relationships : list relationship) :
  add_contains root_package packages relationships
  = relationships ++ (contains_edge root_package <$> OrderedDict.keys packages).
Proof.
  unfold add_contains. generalize (OrderedDict.keys packages). intros ks.
  revert relationships. induction ks as [|k ks IH]; intros relationships.
  - by rewrite app_nil_r.
  - cbn [foldl]. rewrite IH, fmap_cons, <-app_assoc. done.
Qed.

(** ** The merge as a whole *)

(** The parts of a merge that did not raise. *)
Lemma merge_parts (root_package : string) (doc1 doc2 : document)
    (res : merge_result) :
  merge root_package doc1 doc2 = Some res →
  ∃ c1,
    merge_files (doc_files doc1) (doc_files doc2) counters_zero
    = Some (sbom_files (merged_sbom res), c1)
    ∧ merge_packages root_package (doc_packages doc1) (doc_packages doc2) c1
      = Some (sbom_packages (merged_sbom res), merge_counters res, merge_log res)
    ∧ sbom_relationships (merged_sbom res)
      = describes_edge root_package
        :: (doc_relationships doc1
              ≫= rebuilt (doc_files doc1) (doc_packages doc1))
        ++ (doc_relationships doc2
              ≫= rebuilt (doc_files doc2) (doc_packages doc2))
        ++ (contains_edge root_package
              <$> OrderedDict.keys (sbom_packages (merged_sbom res))).
Proof.
  unfold merge.
  destruct (merge_files _ _ _) as [[files c1]|] eqn:Hf; simpl; [|done].
  destruct (merge_packages _ _ _ _) as [[[packages c2] log]|] eqn:Hp;
    simpl; [|done].
  destruct (for_each (rebuild_relationship (doc_files doc1) _) _ _)
    as [rels1|] eqn:H1; simpl; [|done].
  destruct (for_each (rebuild_relationship (doc_files doc2) _) _ _)
    as [rels2|] eqn:H2; simpl; [|done].
  intros; simplify_eq. simpl. exists c1. split_and!; [done..|].
  clear Hf Hp.
  apply rebuild_loop_rebuilt in H1 as ->.
  apply rebuild_loop_rebuilt in H2 as ->.
  rewrite add_contains_keys. simpl. by rewrite <-!app_assoc.
Qed.

(** ** The merge returns *)

Lemma for_each_is_Some {A S : Type} (body : A → S → option S) (l : list A) (s : S) :
  (∀ x s', x ∈ l → is_Some (body x s')) → is_Some (for_each body l s).
Proof.
  revert s. induction l as [|x l IH]; intros s Hbody; simpl; [done|].
  destruct (Hbody x s) as [s' ->]; [by left|]. simpl.
  apply IH. intros y t Hy. apply Hbody. by right.
Qed.

Lemma process_file1_is_Some (files2 : list record) (file : record)
    (st : files_dict * counters) :
  has_name file → Forall has_name files2 →
  is_Some (process_file1 files2 file st).
Proof.
  intros Hfile Hall. destruct st as [files c]. unfold process_file1.
  case_decide.
  - rewrite pair_all_files by done. simpl.
    by destruct (foldl _ _ _).
  - destruct Hfile as [n Hn]. unfold getitem. by rewrite Hn.
Qed.

Lemma process_file2_is_Some (files1 : list record) (file : record)
    (st : files_dict * counters) :
  has_name file → is_Some (process_file2 files1 file st).
Proof.
  intros [n Hn]. destruct st as [files c]. unfold process_file2, getitem.
  rewrite Hn. by repeat case_decide.
Qed.

Lemma process_package1_is_Some (packages2 : list record) (package : record)
    (st : packages_state) :
  has_name package → Forall has_name packages2 →
  is_Some (process_package1 packages2 package st).
Proof.
  intros Hpackage Hall. destruct st as [[packages c] log].
  unfold process_package1. case_decide.
  - rewrite pair_all_packages by done. simpl.
    by destruct (foldl _ _ _).
  - destruct Hpackage as [n Hn]. unfold getitem. by rewrite Hn.
Qed.

Lemma process_package2_is_Some (packages1 : list record) (package : record)
    (st : packages_state) :
  has_name package → is_Some (process_package2 packages1 package st).
Proof.
  intros [n Hn]. destruct st as [[packages c] log].
  unfold process_package2, getitem. rewrite Hn. by case_decide.
Qed.

Lemma resolve_is_Some (files packages : list record) (r : relationship) :
  Forall has_name files → Forall has_name packages →
  is_Some (resolve files packages r).
Proof.
  intros Hfiles Hpackages. unfold resolve.
  destruct (for_each_is_Some (resolve_file r) files
              (VNone, VNone, "package", "package")) as [st1 ->].
  { intros f [[[s t] sty] tty] Hf.
    destruct (proj1 (Forall_forall _ _) Hfiles f Hf) as [n Hn].
    unfold resolve_file, getitem. rewrite Hn. simpl. by repeat case_decide. }
  simpl. apply for_each_is_Some.
  intros p [[[s t] sty] tty] Hp.
  destruct (proj1 (Forall_forall _ _) Hpackages p Hp) as [n Hn].
  unfold resolve_package, getitem. rewrite Hn. simpl. by repeat case_decide.
Qed.

Lemma rebuild_relationship_is_Some (files packages : list record)
    (r : relationship) (relationships : list relationship) :
  Forall has_name files → Forall has_name packages →
  is_Some (rebuild_relationship files packages r relationships).
Proof.
  intros Hfiles Hpackages. unfold rebuild_relationship.
  destruct (resolve_is_Some files packages r Hfiles Hpackages)
    as [[[[s t] sty] tty] ->].
  simpl. by case_decide.
Qed.

(** On documents whose records all have a name, nothing raises. *)
Lemma merge_succeeds (root_package : string) (doc1 doc2 : document) :
  Forall has_name (doc_files doc1) → Forall has_name (doc_files doc2) →
  Forall has_name (doc_packages doc1) → Forall has_name (doc_packages doc2) →
  is_Some (merge root_package doc1 doc2).
Proof.
  intros Hf1 Hf2 Hp1 Hp2. unfold merge, merge_files, merge_packages.
  destruct (for_each_is_Some (process_file1 (doc_files doc2)) (doc_files doc1)
              ([], counters_zero)) as [st1 ->].
  { intros f st Hf. apply process_file1_is_Some; [|done].
    by apply (proj1 (Forall_forall _ _) Hf1). }
  simpl.
  destruct (for_each_is_Some (process_file2 (doc_files doc1)) (doc_files doc2) st1)
    as [[files c1] ->].
  { intros f st Hf. apply process_file2_is_Some.
    by apply (proj1 (Forall_forall _ _) Hf2). }
  simpl.
  match goal with |- context [for_each (process_package1 ?l2) ?l1 ?s] =>
    destruct (for_each_is_Some (process_package1 l2) l1 s) as [st2 ->] end.
  { intros p st Hp. apply process_package1_is_Some; [|done].
    by apply (proj1 (Forall_forall _ _) Hp1). }
  simpl.
  destruct (for_each_is_Some (process_package2 (doc_packages doc1))
              (doc_packages doc2) st2) as [[[packages c2] log] ->].
  { intros p st Hp. apply process_package2_is_Some.
    by apply (proj1 (Forall_forall _ _) Hp2). }
  simpl.
  match goal with |- context [for_each (rebuild_relationship ?f ?p) ?l ?s] =>
    destruct (for_each_is_Some (rebuild_relationship f p) l s) as [rels1 ->] end.
  { intros r rels _. by apply rebuild_relationship_is_Some. }
  simpl.
  match goal with |- context [for_each (rebuild_relationship ?f ?p) ?l ?s] =>
    destruct (for_each_is_Some (rebuild_relationship f p) l s) as [rels2 ->] end.
  { intros r rels _. by apply rebuild_relationship_is_Some. }
  done.
Qed.

(** ** A first document without files *)

Section store_all.
Context {K : Type} `{EqDecision K} (key : record → K).

Lemma store_all_get_other (l : list record) (d : odict K record) (k : K) :
  k ∉ key <$> l →
  OrderedDict.get k (store_all key l d) = OrderedDict.get k d.
Proof.
  revert d. induction l as [|x l IH]; intros d Hk; [done|].
  rewrite fmap_cons in Hk. apply not_elem_of_cons in Hk as [Hne Hk].
  change (store_all key (x :: l) d)
    with (store_all key l (OrderedDict.set (key x) x d)).
  rewrite IH by done. by apply get_set_ne.
Qed.

(** Under the key of a stored record there is a stored record of that
    key: the last one. *)
Lemma store_all_get (l : list record) (d : odict K record) (g : record) :
  g ∈ l →
  ∃ g', g' ∈ l ∧ key g' = key g
        ∧ OrderedDict.get (key g) (store_all key l d) = Some g'.
Proof.
  revert d g. induction l as [|x l IH]; intros d g Hg.
  { by apply elem_of_nil in Hg. }
  destruct (decide (key g ∈ key <$> l)) as [Hlater|Hlast].
  - apply list_elem_of_fmap in Hlater as (g2 & Hkey & Hg2).
    destruct (IH (OrderedDict.set (key x) x d) g2 Hg2)
      as (g' & Hg' & Hk' & Hget).
    exists g'. split_and!; [by right|congruence|].
    rewrite Hkey. exact Hget.
  - apply elem_of_cons in Hg as [->|Hg].
    + exists x. split_and!; [by left|done|].
      change (store_all key (x :: l) d)
        with (store_all key l (OrderedDict.set (key x) x d)).
      rewrite (store_all_get_other l _ (key x) Hlast). apply get_set_eq.
    + exfalso. apply Hlast, list_elem_of_fmap. by exists g.
Qed.

Lemma store_all_get_unique (l : list record) (d : odict K record) (g : record) :
  NoDup (key <$> l) → g ∈ l →
  OrderedDict.get (key g) (store_all key l d) = Some g.
Proof.
  revert d. induction l as [|x l IH]; intros d Hnd Hg.
  { by apply elem_of_nil in Hg. }
  rewrite fmap_cons in Hnd. apply NoDup_cons in Hnd as [Hx Hnd].
  change (store_all key (x :: l) d)
    with (store_all key l (OrderedDict.set (key x) x d)).
  apply elem_of_cons in Hg as [->|Hg]; [|by apply IH].
  rewrite (store_all_get_other l _ (key x) Hx). apply get_set_eq.
Qed.
End store_all.

(** With no file in the first document, the second file loop copies every
    file and counts it as unchanged. *)
Lemma files2_loop_degenerate (l : list record) (files : files_dict) (c : counters) :
  for_each (process_file2 []) l (files, c)
  = Some (store_all get_name l files,
          Counters (updated_info c) (identical_info c + length l)
                   (additional_info c) (merged_info c)).
Proof.
  revert files c. induction l as [|g l IH]; intros files c.
  - simpl. destruct c; simpl. do 2 f_equal. f_equal. lia.
  - cbn [for_each]. unfold process_file2 at 1. simpl.
    rewrite copy_record_initialise, IH. unfold store_all. simpl.
    do 2 f_equal. f_equal. lia.
Qed.

(** * The claims of the specification *)

Example root_package_name_example :
  Scenarios.root = "MERGETOOL-one-spdx-two-spdx".
Proof. reflexivity. Qed.

(** ** C2 and C4: the Attribute Reconciler *)

(** C2. For matched records [r1] and [r2] and an attribute [param] that
    both have with different values, the record reconciled from them holds
    the value of [r2] when the value of [r1] is "NOASSERTION" and the value
    of [r1] otherwise; [param] is one of the attributes that the updated
    counter counts, each of them once. *)
Theorem C2_noassertion_resolution (r1 r2 sbom : record) (c : counters)
    (param : string) (p1 p2 : value) :
  r1 !! param = Some p1 → r2 !! param = Some p2 → p1 ≠ p2 →
  (reconcile r1 r2 (sbom, c)).1 !! param
  = Some (if decide (p1 = NOASSERTION) then p2 else p1)
  ∧ filter (updated_attr r2) r1 !! param = Some p1
  ∧ updated_info (reconcile r1 r2 (sbom, c)).2
    = updated_info c + size (filter (updated_attr r2) r1).
Proof.
  intros H1 H2 Hne. split_and!.
  - rewrite reconcile_lookup, H1, H2. simpl. by rewrite decide_False.
  - apply updated_attr_lookup. eauto.
  - by rewrite reconcile_counters.
Qed.

Lemma C2_noassertion_resolution_witness :
  (reconcile Scenarios.libA1 Scenarios.libA2 (initialise, counters_zero)).1
    !! "licensedeclared" = Some (VStr "MIT")
  ∧ filter (updated_attr Scenarios.libA2) Scenarios.libA1 !! "licensedeclared"
    = Some NOASSERTION
  ∧ updated_info
      (reconcile Scenarios.libA1 Scenarios.libA2 (initialise, counters_zero)).2
    = 0 + size (filter (updated_attr Scenarios.libA2) Scenarios.libA1).
Proof.
  apply (C2_noassertion_resolution Scenarios.libA1 Scenarios.libA2 initialise
           counters_zero "licensedeclared" NOASSERTION (VStr "MIT"));
    [reflexivity|reflexivity|discriminate].
Defined.

(** The three cases of the specification, run on the code. *)
Example noassertion_asymmetry :
  let merged a b :=
    (reconcile {[ "licensedeclared" := VStr a ]} {[ "licensedeclared" := VStr b ]}
       (initialise, counters_zero)).1 !! "licensedeclared" in
  merged "NOASSERTION" "MIT" = Some (VStr "MIT")
  ∧ merged "MIT" "NOASSERTION" = Some (VStr "MIT")
  ∧ merged "MIT" "Apache-2.0" = Some (VStr "MIT").
Proof. vm_compute. done. Qed.

(** The attributes of the builder after a row of reconciliations of [r1],
    when it already holds those of [r1]. *)
Lemma reconcile_all_dom (r1 sbom : record) (c : counters) (gs : list record) :
  dom r1 ⊆ dom sbom →
  dom (foldl (λ st g, reconcile r1 g st) (sbom, c) gs).1
  = dom sbom ∪ ⋃ (dom <$> gs).
Proof.
  revert sbom c. induction gs as [|g gs IH]; intros sbom c Hsub.
  - simpl. set_solver.
  - cbn [foldl]. pose proof (reconcile_dom r1 g sbom c) as Hdom.
    destruct (reconcile r1 g (sbom, c)) as [sbom' c']. simpl in Hdom.
    rewrite IH by (rewrite Hdom; set_solver).
    rewrite Hdom, fmap_cons. simpl. set_solver.
Qed.

(** C4, as stated, fails: the file "a" of the first document is matched
    with two files "a" of the second, the second of them its exact copy;
    the record built for it holds "copyrighttext", which neither record of
    that second pair has. *)
Lemma C4_union_counterexample :
  same_name Scenarios.fileN Scenarios.fileN
  ∧ process_file1 [Scenarios.fileA; Scenarios.fileN] Scenarios.fileN
      ([], counters_zero)
    = Some ([(VStr "a", Scenarios.fileA)], Counters 0 4 0 0)
  ∧ dom Scenarios.fileA ≠ dom Scenarios.fileN ∪ dom Scenarios.fileN
  ∧ for_each (merge_file_match Scenarios.fileN) [Scenarios.fileA]
      (initialise, counters_zero)
    = Some (Scenarios.fileA, Counters 0 2 0 0)
  ∧ dom (reconcile Scenarios.fileN Scenarios.fileN
           (Scenarios.fileA, Counters 0 2 0 0)).1
    ≠ dom Scenarios.fileN ∪ dom Scenarios.fileN.
Proof.
  assert ("copyrighttext" ∉ dom Scenarios.fileN ∪ dom Scenarios.fileN) as Hnot.
  { rewrite elem_of_union, !elem_of_dom. intros [[v Hv]|[v Hv]];
      vm_compute in Hv; discriminate. }
  split_and!; [done|by_evaluation| |by_evaluation|].
  - intros Heq. apply Hnot. rewrite <-Heq. apply elem_of_dom.
    exists (VStr "c"). by_evaluation.
  - intros Heq. apply Hnot. rewrite <-Heq. apply elem_of_dom.
    exists (VStr "c"). by_evaluation.
Qed.

(** C4, amended. The attribute set of the record reconciled from [r1] and
    [r2] is the union of their attribute sets and of the attributes the
    builder already held; it is the union of the two when the builder is
    fresh, that is when [r2] is the first record matched with [r1]; and
    the record built from [r1] and all the records [r2 :: gs] matched with
    it has the attributes of [r1] and of every one of them.  No attribute
    is ever dropped. *)
Theorem C4_union_completeness (r1 r2 sbom : record) (c : counters)
    (gs : list record) :
  dom (reconcile r1 r2 (initialise, c)).1 = dom r1 ∪ dom r2
  ∧ dom (reconcile r1 r2 (sbom, c)).1 = dom sbom ∪ dom r1 ∪ dom r2
  ∧ dom (foldl (λ st g, reconcile r1 g st) (initialise, c) (r2 :: gs)).1
    = dom r1 ∪ dom r2 ∪ ⋃ (dom <$> gs).
Proof.
  assert (dom (reconcile r1 r2 (initialise, c)).1 = dom r1 ∪ dom r2) as Hfresh.
  { rewrite reconcile_dom. unfold initialise. rewrite dom_empty_L. set_solver. }
  split_and!; [done|apply reconcile_dom|].
  cbn [foldl]. destruct (reconcile r1 r2 (initialise, c)) as [sbom' c'].
  simpl in Hfresh. rewrite reconcile_all_dom by (rewrite Hfresh; set_solver).
  by rewrite Hfresh.
Qed.

(** ** C1, C3 and C9: the mergers *)

(** The first loop on a file without an exact copy in the second document:
    copied and counted as merged, whatever the names in that document. *)
Lemma process_file1_unmatched (files2 : list record) (file : record)
    (files : files_dict) (c : counters) :
  file ∉ files2 → has_name file →
  process_file1 files2 file (files, c)
  = Some (OrderedDict.set (get_name file) file files, incr_merged c).
Proof.
  intros Hnin [n Hn]. unfold process_file1, getitem.
  rewrite decide_False by done. rewrite Hn. simpl.
  by rewrite copy_record_initialise.
Qed.

(** The first loop on a file with an exact copy in the second document:
    reconciled with every file of its name there. *)
Lemma process_file1_matched (files2 : list record) (file : record)
    (files : files_dict) (c : counters) :
  file ∈ files2 → Forall has_name files2 →
  process_file1 files2 file (files, c)
  = Some (let st := foldl (λ st g, reconcile file g st) (initialise, c)
                      (filter (same_name file) files2) in
          (OrderedDict.set (get_name st.1) st.1 files, st.2)).
Proof.
  intros Hin Hall. unfold process_file1. rewrite decide_True by done.
  rewrite pair_all_files; [|by apply (proj1 (Forall_forall _ _) Hall)|done].
  simpl. by destruct (foldl _ _ _).
Qed.

(** C1. On a file of the first document and a file of the second that
    share a name and differ in a value, the code does not reconcile: the
    first loop copies the first file and counts it as merged, the second
    loop overwrites it with the second file and counts it as merged too;
    the record the Attribute Reconciler would give is a third one. *)
Theorem C1_same_name_files_not_reconciled :
  for_each (process_file1 [Scenarios.fileB]) [Scenarios.fileA] ([], counters_zero)
  = Some ([(VStr "a", Scenarios.fileA)], Counters 0 0 0 1)
  ∧ merge_files [Scenarios.fileA] [Scenarios.fileB] counters_zero
    = Some ([(VStr "a", Scenarios.fileB)], Counters 0 0 0 2)
  ∧ reconcile Scenarios.fileA Scenarios.fileB (initialise, counters_zero)
    = (<["copyrighttext" := VStr "c"]> Scenarios.fileB, Counters 1 1 1 0)
  ∧ <["copyrighttext" := VStr "c"]> Scenarios.fileB ≠ Scenarios.fileA
  ∧ <["copyrighttext" := VStr "c"]> Scenarios.fileB ≠ Scenarios.fileB.
Proof.
  split_and!; [by_evaluation..| |].
  - intros H. apply (f_equal (λ m : record, m !! "licenseconcluded")) in H.
    vm_compute in H. discriminate.
  - intros H. apply (f_equal (λ m : record, m !! "copyrighttext")) in H.
    vm_compute in H. discriminate.
Qed.

(** The end-to-end scenario of the specification ("libA" 1.0 with license
    "NOASSERTION" in the first document and "MIT" in the second): the
    stored package is the one of the second document, and it is counted
    as merged twice, not as one updated attribute. *)
Example end_to_end_scenario :
  merge_packages Scenarios.root [Scenarios.libA1] [Scenarios.libA2] counters_zero
  = Some ([((VStr Scenarios.root, VNone), root_package_record Scenarios.root);
           ((VStr "libA", VStr "1.0"), Scenarios.libA2)],
          Counters 0 0 0 2, []).
Proof. by_evaluation. Qed.

(** The version guard, where it is reached. *)
Lemma merge_package_match_veto (package package2 : record) (sbom : record)
    (c : counters) (log : list string) :
  has_name package → has_name package2 →
  same_name package package2 → version_conflict package package2 →
  merge_package_match package package2 (sbom, c, log)
  = Some (sbom, c, log ++ [veto_message package package2]).
Proof.
  intros H1 H2 Hs Hv. rewrite merge_package_match_named by done.
  by rewrite !decide_True.
Qed.

(** The first loop on a package without an exact copy in the second
    document: the loop with the version guard is not entered. *)
Lemma process_package1_unmatched (packages2 : list record) (package : record)
    (packages : packages_dict) (c : counters) (log : list string) :
  package ∉ packages2 → has_name package →
  process_package1 packages2 package (packages, c, log)
  = Some (OrderedDict.set (package_key_of package) package packages,
          incr_merged c, log).
Proof.
  intros Hnin [n Hn]. unfold process_package1, getitem.
  rewrite decide_False by done. rewrite Hn. simpl.
  by rewrite copy_record_initialise.
Qed.

(** C3. On "libfoo" 1.0 in the first document and "libfoo" 2.0 in the
    second, the two packages are not attribute-merged (each is copied under
    its own key and counted as merged), but no error is reported: the log
    stays empty. *)
Theorem C3_version_mismatch_not_reported :
  merge_packages Scenarios.root [Scenarios.libfoo1] [Scenarios.libfoo2]
    counters_zero
  = Some ([((VStr Scenarios.root, VNone), root_package_record Scenarios.root);
           ((VStr "libfoo", VStr "1.0"), Scenarios.libfoo1);
           ((VStr "libfoo", VStr "2.0"), Scenarios.libfoo2)],
          Counters 0 0 0 2, []).
Proof. by_evaluation. Qed.

(** The error is reported when the second document also holds an exact
    copy of the package of the first. *)
Example version_mismatch_reported :
  merge_packages Scenarios.root [Scenarios.libfoo1]
    [Scenarios.libfoo1; Scenarios.libfoo2] counters_zero
  = Some ([((VStr Scenarios.root, VNone), root_package_record Scenarios.root);
           ((VStr "libfoo", VStr "1.0"), Scenarios.libfoo1);
           ((VStr "libfoo", VStr "2.0"), Scenarios.libfoo2)],
          Counters 0 2 0 1,
          ["[ERROR] Version mismatch for libfoo - 1.0 2.0"]).
Proof. by_evaluation. Qed.

(** C9, as stated, fails: with two files named "a" in the second document,
    the second of them an exact copy of the file of the first document, the
    record built for that file is not the one reconciled with the first of
    the two, and the counters are not those of one reconciliation. *)
Lemma C9_first_match_counterexample :
  first_match Scenarios.fileN [Scenarios.fileB; Scenarios.fileN]
  = Some Scenarios.fileB
  ∧ reconcile Scenarios.fileN Scenarios.fileB (initialise, counters_zero)
    = (Scenarios.fileB, Counters 1 1 0 0)
  ∧ process_file1 [Scenarios.fileB; Scenarios.fileN] Scenarios.fileN
      ([], counters_zero)
    = Some ([(VStr "a", Scenarios.fileN)], Counters 1 3 0 0)
  ∧ for_each (merge_file_match Scenarios.fileN) [Scenarios.fileB; Scenarios.fileN]
      (initialise, counters_zero)
    ≠ Some (reconcile Scenarios.fileN Scenarios.fileB (initialise, counters_zero)).
Proof.
  split_and!; [by_evaluation..|].
  by_decision.
Qed.

(** C9, amended. An entity [a] is paired with every entity of the second
    document that bears its name, in the order of that document, each
    reconciliation writing into the same builder (for packages, the pairs
    with a version conflict are logged instead); so an attribute of [a]
    ends with the value reconciled against the last of them. *)
Theorem C9_pairs_with_every_match (a : record) (B : list record)
    (sbom : record) (c : counters) (log : list string) :
  has_name a → Forall has_name B →
  for_each (merge_file_match a) B (sbom, c)
  = Some (foldl (λ st g, reconcile a g st) (sbom, c) (filter (same_name a) B))
  ∧ for_each (merge_package_match a) B (sbom, c, log)
    = Some (foldl (λ st g, reconcile a g st) (sbom, c)
              (filter (λ g, same_name a g ∧ ¬ version_conflict a g) B),
            log ++ (veto_message a <$>
                    filter (λ g, same_name a g ∧ version_conflict a g) B))
  ∧ ∀ gs g k p1,
      filter (same_name a) B = gs ++ [g] → a !! k = Some p1 →
      (foldl (λ st g, reconcile a g st) (sbom, c) (filter (same_name a) B)).1 !! k
      = Some (resolve_value p1 (g !! k)).
Proof.
  intros Ha HB. split_and!.
  - by apply pair_all_files.
  - by apply pair_all_packages.
  - intros gs g k p1 -> Hk. rewrite foldl_app. cbn [foldl].
    destruct (foldl _ _ gs) as [sbom' c'].
    by rewrite reconcile_lookup, Hk.
Qed.

Lemma C9_pairs_with_every_match_witness :
  for_each (merge_file_match Scenarios.fileN) [Scenarios.fileB; Scenarios.fileN]
    (initialise, counters_zero)
  = Some (foldl (λ st g, reconcile Scenarios.fileN g st) (initialise, counters_zero)
            (filter (same_name Scenarios.fileN) [Scenarios.fileB; Scenarios.fileN])).
Proof.
  refine (proj1 (C9_pairs_with_every_match Scenarios.fileN
                   [Scenarios.fileB; Scenarios.fileN] initialise counters_zero []
                   _ _)).
  - by_decision.
  - by_decision.
Defined.

(** ** C5, C6 and C7: the relationships *)

(** C5. The merged relationship sequence is the [DESCRIBES] edge from the
    synthetic document root to the root package, then the rebuilt edges of
    the first document in the order of its relationships, then those of
    the second, then one [CONTAINS] edge from the root package to each key
    of the merged package mapping, in the order of the mapping; no key
    occurs twice, and the key of the root package is one of them, which
    gives the edge from the root package to itself. *)
Theorem C5_relationship_order (root_package : string) (doc1 doc2 : document)
    (res : merge_result) :
  merge root_package doc1 doc2 = Some res →
  let packages := sbom_packages (merged_sbom res) in
  sbom_relationships (merged_sbom res)
  = Relationship (VStr (parent_name root_package)) "DESCRIBES"
      (VStr root_package) None None
    :: (doc_relationships doc1 ≫= rebuilt (doc_files doc1) (doc_packages doc1))
    ++ (doc_relationships doc2 ≫= rebuilt (doc_files doc2) (doc_packages doc2))
    ++ ((λ p, Relationship (VStr root_package) "CONTAINS" p.1 None None)
          <$> OrderedDict.keys packages)
  ∧ NoDup (OrderedDict.keys packages)
  ∧ (VStr root_package, VNone) ∈ OrderedDict.keys packages.
Proof.
  intros Hmerge packages.
  apply merge_parts in Hmerge as (c1 & _ & Hp & Hrels).
  apply merge_packages_keys in Hp as (Hnd & Hroot & _).
  split_and!; [exact Hrels|done..].
Qed.

Lemma C5_relationship_order_witness :
  ∃ res, merge Scenarios.root Scenarios.docXY Scenarios.docA = Some res
    ∧ sbom_relationships (merged_sbom res)
      = [ Relationship (VStr "SBOM-MERGETOOL-one-spdx-two-spdx") "DESCRIBES"
            (VStr "MERGETOOL-one-spdx-two-spdx") None None;
          Relationship (VStr "x") "DEPENDS_ON" (VStr "y")
            (Some "package") (Some "package");
          Relationship (VStr "MERGETOOL-one-spdx-two-spdx") "CONTAINS"
            (VStr "MERGETOOL-one-spdx-two-spdx") None None;
          Relationship (VStr "MERGETOOL-one-spdx-two-spdx") "CONTAINS"
            (VStr "x") None None;
          Relationship (VStr "MERGETOOL-one-spdx-two-spdx") "CONTAINS"
            (VStr "y") None None;
          Relationship (VStr "MERGETOOL-one-spdx-two-spdx") "CONTAINS"
            (VStr "libA") None None ].
Proof.
  destruct (merge Scenarios.root Scenarios.docXY Scenarios.docA) as [res|] eqn:E;
    [|by vm_compute in E].
  exists res. split; [done|].
  destruct (C5_relationship_order _ _ _ res E) as (-> & _ & _).
  assert (OrderedDict.keys (sbom_packages (merged_sbom res))
          = [(VStr Scenarios.root, VNone); (VStr "x", VNone); (VStr "y", VNone);
             (VStr "libA", VStr "1.0")]) as ->.
  { vm_compute in E. by simplify_eq. }
  by_evaluation.
Defined.

(** C6, as stated, fails: merging two empty documents gives the
    [DESCRIBES] edge, whose source is the synthetic document root, which
    is no file, no package and not the root package. *)
Lemma C6_endpoints_counterexample :
  ∃ res, merge Scenarios.root Scenarios.empty Scenarios.empty = Some res
    ∧ ¬ ∀ r, r ∈ sbom_relationships (merged_sbom res) →
             endpoint_ok Scenarios.root (merged_sbom res) (rel_source r)
             ∧ endpoint_ok Scenarios.root (merged_sbom res) (rel_target r).
Proof.
  destruct (merge Scenarios.root Scenarios.empty Scenarios.empty) as [res|] eqn:E;
    [|by vm_compute in E].
  exists res. split; [done|].
  intros H. destruct (H (describes_edge Scenarios.root)) as [Hsrc _].
  { vm_compute in E. simplify_eq. by left. }
  revert Hsrc. vm_compute in E. simplify_eq. by_decision.
Qed.

(** An endpoint that resolves in a source document names an entity of the
    merged document. *)
Lemma resolves_endpoint_ok (root_package : string) (doc1 doc2 : document)
    (res : merge_result) (files packages : list record) (e : value) :
  merge root_package doc1 doc2 = Some res →
  (∀ f, f ∈ files → f ∈ doc_files doc1 ++ doc_files doc2) →
  (∀ p, p ∈ packages → p ∈ doc_packages doc1 ++ doc_packages doc2) →
  resolves files packages e →
  endpoint_ok root_package (merged_sbom res) e.
Proof.
  intros Hmerge Hfiles Hpackages [_ Hnamed].
  apply merge_parts in Hmerge as (c1 & Hf & Hp & _).
  apply Exists_exists in Hnamed as (f & Hin & Hn).
  apply elem_of_app in Hin as [Hin|Hin].
  - left. eapply merge_files_keys; [exact Hf|by apply Hfiles|done].
  - right; left. apply merge_packages_keys in Hp as (_ & _ & Hnames).
    eapply Hnames; [by apply Hpackages|done].
Qed.

(** C6, amended. Every relationship of the merged document has a target
    that names an entity of the merged file mapping or of the merged
    package mapping, or is the root package; so has its source, except for
    the [DESCRIBES] edge, whose source is the synthetic document root. *)
Theorem C6_relationship_endpoints (root_package : string) (doc1 doc2 : document)
    (res : merge_result) (r : relationship) :
  merge root_package doc1 doc2 = Some res →
  r ∈ sbom_relationships (merged_sbom res) →
  endpoint_ok root_package (merged_sbom res) (rel_target r)
  ∧ (endpoint_ok root_package (merged_sbom res) (rel_source r)
     ∨ r = Relationship (VStr (parent_name root_package)) "DESCRIBES"
             (VStr root_package) None None).
Proof.
  intros Hmerge Hr.
  pose proof (merge_parts _ _ _ _ Hmerge) as (c1 & _ & _ & Hrels).
  rewrite Hrels in Hr. clear Hrels.
  apply elem_of_cons in Hr as [->|Hr].
  { split; [|by right]. right; right. done. }
  rewrite !elem_of_app in Hr. destruct Hr as [Hr|[Hr|Hr]].
  - apply list_elem_of_bind in Hr as (r0 & Hr & _).
    apply rebuilt_edge in Hr as (-> & _ & -> & Hs & Ht).
    split; [|left];
      (eapply resolves_endpoint_ok; [exact Hmerge| | |eassumption];
       intros x Hx; apply elem_of_app; by left).
  - apply list_elem_of_bind in Hr as (r0 & Hr & _).
    apply rebuilt_edge in Hr as (-> & _ & -> & Hs & Ht).
    split; [|left];
      (eapply resolves_endpoint_ok; [exact Hmerge| | |eassumption];
       intros x Hx; apply elem_of_app; by right).
  - apply list_elem_of_fmap in Hr as (k & -> & Hk). simpl. split.
    + right; left. apply list_elem_of_fmap. by exists k.
    + left. right; right. done.
Qed.

Lemma C6_relationship_endpoints_witness :
  ∃ res, merge Scenarios.root Scenarios.docXY Scenarios.docA = Some res
    ∧ endpoint_ok Scenarios.root (merged_sbom res) (VStr "y")
    ∧ (endpoint_ok Scenarios.root (merged_sbom res) (VStr "x")
       ∨ set_endpoint_types "package" "package"
           (set_relationship (VStr "x") "DEPENDS_ON" (VStr "y"))
         = describes_edge Scenarios.root).
Proof.
  destruct (merge Scenarios.root Scenarios.docXY Scenarios.docA) as [res|] eqn:E;
    [|by vm_compute in E].
  exists res. split; [done|].
  apply (C6_relationship_endpoints _ _ _ res
           (set_endpoint_types "package" "package"
              (set_relationship (VStr "x") "DEPENDS_ON" (VStr "y"))) E).
  vm_compute in E. simplify_eq. simpl. by_decision.
Defined.

(** C7. A relationship from the package "x" to itself, in a document that
    has the package "x": both endpoints resolve in the document, and the
    relationship is dropped. *)
Theorem C7_self_relationship_dropped :
  resolves [] [Scenarios.pkgX] (rel_source Scenarios.relXX)
  ∧ resolves [] [Scenarios.pkgX] (rel_target Scenarios.relXX)
  ∧ rebuild_relationship [] [Scenarios.pkgX] Scenarios.relXX [] = Some []
  ∧ sbom_relationships ∘ merged_sbom
      <$> merge Scenarios.root (Document [] [Scenarios.pkgX] [Scenarios.relXX])
            Scenarios.empty
    = Some [describes_edge Scenarios.root;
            contains_edge Scenarios.root (VStr Scenarios.root, VNone);
            contains_edge Scenarios.root (VStr "x", VNone)].
Proof. split_and!; [by_decision|by_decision|by_evaluation..]. Qed.

(** The same relationship between two different packages is rebuilt. *)
Example distinct_relationship_rebuilt :
  rebuild_relationship [] [Scenarios.pkgX; Scenarios.pkgY] Scenarios.relXY []
  = Some [Relationship (VStr "x") "DEPENDS_ON" (VStr "y")
            (Some "package") (Some "package")].
Proof. by_evaluation. Qed.

(** ** C8 and C10: the outcome of a run *)

Lemma py_or_nonzero (a b : nat) : py_or a b ≠ 0 ↔ a ≠ 0 ∨ b ≠ 0.
Proof. unfold py_or. case_decide; lia. Qed.

(** A run on two different inputs that exist: the merge, then the return
    code from the counters (lines 90-359). *)
Lemma main_accepted (path_exists : string → bool)
    (path_name : string → string) (parse_file : string → document)
    (FILE1 FILE2 : string) :
  FILE1 ≠ FILE2 → path_exists FILE1 = true → path_exists FILE2 = true →
  main path_exists path_name parse_file FILE1 FILE2
  = res ← merge (root_package_name (path_name FILE1) (path_name FILE2))
            (parse_file FILE1) (parse_file FILE2);
    Some (Outcome
            (if decide (signals_differences (merge_counters res))
             then 1 else 0)%Z
            (merge_log res) (Some (merge_counters res))
            (Some (parent_name (root_package_name (path_name FILE1)
                                  (path_name FILE2)),
                   merged_sbom res))).
Proof.
  intros Hne H1 H2. unfold main. rewrite decide_True by done.
  rewrite H1, H2. simpl.
  destruct (merge _ _ _) as [res|]; simpl; [|done].
  do 2 f_equal.
  destruct (decide (signals_differences (merge_counters res))) as [Hs|Hs];
    unfold signals_differences in Hs.
  - rewrite decide_True; [done|]. rewrite !py_or_nonzero. tauto.
  - rewrite decide_False; [done|]. rewrite !py_or_nonzero. tauto.
Qed.

(** A run on equal names or on a missing input (lines 74-88). *)
Lemma main_rejected (path_exists : string → bool)
    (path_name : string → string) (parse_file : string → document)
    (FILE1 FILE2 : string) :
  FILE1 = FILE2 ∨ path_exists FILE1 = false ∨ path_exists FILE2 = false →
  main path_exists path_name parse_file FILE1 FILE2
  = Some (Outcome (-1)
            (if decide (FILE1 = FILE2)
             then ["Must specify different filenames."]
             else (if path_exists FILE1 then []
                   else [FILE1 +:+ " does not exist"])
                  ++ (if path_exists FILE2 then []
                      else [FILE2 +:+ " does not exist"]))
            None None).
Proof.
  intros Hbad. unfold main. destruct (decide (FILE1 ≠ FILE2)) as [Hne|Heq].
  - rewrite decide_False by done.
    destruct Hbad as [?|Hmissing]; [done|].
    destruct (path_exists FILE1), (path_exists FILE2); simpl; try done.
    by destruct Hmissing.
  - rewrite decide_True; [done|]. by apply dec_stable.
Qed.

(** C8. When the two input names are equal or an input does not exist,
    [main] returns -1 and leaves no summary and no generated document,
    whatever the parser would return: the merge is not run.  Otherwise it
    runs the merge and returns 1 when one of the updated, new and merged
    counters is not zero and 0 when all three are zero; the unchanged
    counter has no part in it. *)
Theorem C8_process_outcome (path_exists : string → bool)
    (path_name : string → string) (parse_file : string → document)
    (FILE1 FILE2 : string) :
  (FILE1 = FILE2 ∨ path_exists FILE1 = false ∨ path_exists FILE2 = false →
   ∃ log, ∀ parse_file',
     main path_exists path_name parse_file' FILE1 FILE2
     = Some (Outcome (-1) log None None))
  ∧ (FILE1 ≠ FILE2 → path_exists FILE1 = true → path_exists FILE2 = true →
     main path_exists path_name parse_file FILE1 FILE2
     = res ← merge (root_package_name (path_name FILE1) (path_name FILE2))
               (parse_file FILE1) (parse_file FILE2);
       Some (Outcome
               (if decide (signals_differences (merge_counters res))
                then 1 else 0)%Z
               (merge_log res) (Some (merge_counters res))
               (Some (parent_name (root_package_name (path_name FILE1)
                                     (path_name FILE2)),
                      merged_sbom res))))
  ∧ (∀ c n, signals_differences c
            ↔ signals_differences
                (Counters (updated_info c) n (additional_info c) (merged_info c))).
Proof.
  split_and!.
  - intros Hbad. eexists. intros parse_file'. by apply main_rejected.
  - apply main_accepted.
  - intros c n. by unfold signals_differences.
Qed.

Lemma C8_process_outcome_witness :
  (∃ log, ∀ parse_file',
     main Scenarios.path_exists Scenarios.path_name parse_file'
       "one.spdx" "one.spdx"
     = Some (Outcome (-1) log None None))
  ∧ ∃ o, main Scenarios.path_exists Scenarios.path_name Scenarios.parse_file
           "one.spdx" "two.spdx" = Some o
         ∧ return_code o = 1%Z.
Proof.
  pose proof (C8_process_outcome Scenarios.path_exists Scenarios.path_name
                Scenarios.parse_file "one.spdx" "one.spdx") as (Hrej & _ & _).
  pose proof (C8_process_outcome Scenarios.path_exists Scenarios.path_name
                Scenarios.parse_file "one.spdx" "two.spdx") as (_ & Hrun & _).
  split.
  - apply Hrej. by left.
  - rewrite Hrun; [|discriminate|reflexivity|reflexivity].
    destruct (merge _ _ _) as [res|] eqn:E; [|by vm_compute in E].
    eexists. split; [done|]. simpl.
    vm_compute in E. simplify_eq. reflexivity.
Defined.

(** The three outcomes on the inputs of [Scenarios]. *)
Example three_way_signal :
  return_code <$> main Scenarios.path_exists Scenarios.path_name
                    Scenarios.parse_file "one.spdx" "one.spdx" = Some (-1)%Z
  ∧ return_code <$> main Scenarios.path_exists Scenarios.path_name
                      Scenarios.parse_file "one.spdx" "missing.spdx" = Some (-1)%Z
  ∧ return_code <$> main Scenarios.path_exists Scenarios.path_name
                      Scenarios.parse_file "one.spdx" "two.spdx" = Some 1%Z
  ∧ return_code <$> main Scenarios.path_exists Scenarios.path_name
                      (λ _, Scenarios.empty) "one.spdx" "two.spdx" = Some 0%Z.
Proof. split_and!; by_evaluation. Qed.

(** C10. With no file in the first document, every file of the second is
    stored verbatim under its name (a later file of the same name
    replacing an earlier one) and counted once as unchanged; the updated,
    new and merged counters do not move.  With no package either, a run
    that returns signals no difference. *)
Theorem C10_empty_first_document (files2 : list record) (c : counters) :
  merge_files [] files2 c
  = Some (store_all get_name files2 [],
          Counters (updated_info c) (identical_info c + length files2)
                   (additional_info c) (merged_info c))
  ∧ (∀ g, g ∈ files2 →
       ∃ g', g' ∈ files2 ∧ get_name g' = get_name g
             ∧ OrderedDict.get (get_name g) (store_all get_name files2 [])
               = Some g')
  ∧ (NoDup (get_name <$> files2) →
     ∀ g, g ∈ files2 →
       OrderedDict.get (get_name g) (store_all get_name files2 []) = Some g)
  ∧ (∀ path_exists path_name parse_file FILE1 FILE2 rels1 rels2 o,
       parse_file FILE1 = Document [] [] rels1 →
       parse_file FILE2 = Document files2 [] rels2 →
       main path_exists path_name parse_file FILE1 FILE2 = Some o →
       FILE1 ≠ FILE2 → path_exists FILE1 = true → path_exists FILE2 = true →
       return_code o = 0%Z
       ∧ summary o = Some (Counters 0 (length files2) 0 0)).
Proof.
  split_and!.
  - unfold merge_files. simpl. apply files2_loop_degenerate.
  - intros g Hg. by apply store_all_get.
  - intros Hnd g Hg. by apply store_all_get_unique.
  - intros path_exists path_name parse_file FILE1 FILE2 rels1 rels2 o
      Hd1 Hd2 Hmain Hne H1 H2.
    rewrite main_accepted in Hmain by done.
    destruct (merge _ _ _) as [res|] eqn:E; simpl in Hmain; [|done].
    simplify_eq. simpl.
    apply merge_parts in E as (c1 & Hf & Hp & _).
    rewrite Hd1, Hd2 in Hf, Hp. simpl in Hf, Hp.
    unfold merge_files in Hf. simpl in Hf.
    rewrite files2_loop_degenerate in Hf.
    unfold merge_packages in Hp. simpl in Hp.
    assert (merge_counters res = Counters 0 (length files2) 0 0) as ->
      by by simplify_eq.
    split; [|done]. apply decide_False.
    unfold signals_differences. simpl. tauto.
Qed.

Lemma C10_empty_first_document_witness :
  OrderedDict.get (get_name Scenarios.fileB)
    (store_all get_name [Scenarios.fileB] []) = Some Scenarios.fileB
  ∧ ∃ o, main Scenarios.path_exists Scenarios.path_name
           (λ f, if decide (f = "one.spdx") then Document [] [] []
                 else Document [Scenarios.fileB] [] [])
           "one.spdx" "two.spdx" = Some o
         ∧ return_code o = 0%Z
         ∧ summary o = Some (Counters 0 1 0 0).
Proof.
  pose proof (C10_empty_first_document [Scenarios.fileB] counters_zero)
    as (_ & _ & Hunique & Hmain).
  split.
  - apply Hunique; [by_decision|by left].
  - destruct (main Scenarios.path_exists Scenarios.path_name
                (λ f, if decide (f = "one.spdx") then Document [] [] []
                      else Document [Scenarios.fileB] [] [])
                "one.spdx" "two.spdx") as [o|] eqn:E; [|by vm_compute in E].
    exists o. split; [done|].
    refine (Hmain Scenarios.path_exists Scenarios.path_name _
              "one.spdx" "two.spdx" [] [] o _ _ E _ _ _);
      [reflexivity|reflexivity|discriminate|reflexivity|reflexivity].
Defined.

(** * Further properties of the code *)

(** ** The Attribute Reconciler, case by case *)

(** X1. The value of an attribute after a reconciliation: the common
    value when both records agree, the value of the first record when only
    it has the attribute, the value of the second when only it has it, and
    what the builder held when neither has it. *)
Theorem reconcile_attribute_cases (r1 r2 sbom : record) (c : counters)
    (k : string) :
  (∀ v, r1 !! k = Some v → r2 !! k = Some v →
        (reconcile r1 r2 (sbom, c)).1 !! k = Some v)
  ∧ (∀ v, r1 !! k = Some v → r2 !! k = None →
          (reconcile r1 r2 (sbom, c)).1 !! k = Some v)
  ∧ (∀ v, r1 !! k = None → r2 !! k = Some v →
          (reconcile r1 r2 (sbom, c)).1 !! k = Some v)
  ∧ (r1 !! k = None → r2 !! k = None →
     (reconcile r1 r2 (sbom, c)).1 !! k = sbom !! k).
Proof.
  rewrite reconcile_lookup. split_and!.
  - intros v -> ->. simpl. by rewrite decide_True.
  - by intros v -> ->.
  - by intros v -> ->.
  - by intros -> ->.
Qed.

Lemma reconcile_attribute_cases_witness :
  (reconcile Scenarios.fileA Scenarios.fileB (initialise, counters_zero)).1
    !! "name" = Some (VStr "a")
  ∧ (reconcile Scenarios.fileA Scenarios.fileB (initialise, counters_zero)).1
      !! "copyrighttext" = Some (VStr "c")
  ∧ (reconcile Scenarios.fileB Scenarios.fileA (initialise, counters_zero)).1
      !! "copyrighttext" = Some (VStr "c")
  ∧ (reconcile Scenarios.fileA Scenarios.fileB (initialise, counters_zero)).1
      !! "version" = initialise !! "version".
Proof.
  split_and!.
  - apply (proj1 (reconcile_attribute_cases Scenarios.fileA Scenarios.fileB
                    initialise counters_zero "name")); reflexivity.
  - apply (proj1 (proj2 (reconcile_attribute_cases Scenarios.fileA
                           Scenarios.fileB initialise counters_zero
                           "copyrighttext"))); reflexivity.
  - apply (proj1 (proj2 (proj2 (reconcile_attribute_cases Scenarios.fileB
                                  Scenarios.fileA initialise counters_zero
                                  "copyrighttext")))); reflexivity.
  - apply (proj2 (proj2 (proj2 (reconcile_attribute_cases Scenarios.fileA
                                  Scenarios.fileB initialise counters_zero
                                  "version")))); reflexivity.
Defined.

(** The three classes split the attributes of the first record. *)
Lemma length_attr_classes (file2 : record) (l : list (string * value)) :
  length (filter (updated_attr file2) l)
  + length (filter (identical_attr file2) l)
  + length (filter (additional_attr file2) l) = length l.
Proof.
  induction l as [|[k v] l IH]; [done|].
  rewrite !filter_cons.
  repeat case_decide;
    unfold updated_attr, identical_attr, additional_attr in *; simpl in *;
    destruct (file2 !! k); simpl; try done; try lia; congruence.
Qed.

(** X2. One reconciliation counts every attribute of the first record
    once, as updated, unchanged or new, and never touches the merged
    counter; the attributes that only the second record has are copied
    without being counted. *)
Theorem reconcile_counts_first_record (r1 r2 sbom : record) (c : counters) :
  let c' := (reconcile r1 r2 (sbom, c)).2 in
  updated_info c' + identical_info c' + additional_info c'
  = updated_info c + identical_info c + additional_info c + size r1
  ∧ merged_info c' = merged_info c
  ∧ (updated_info c ≤ updated_info c')%nat
  ∧ (identical_info c ≤ identical_info c')%nat
  ∧ (additional_info c ≤ additional_info c')%nat.
Proof.
  intros c'. subst c'. rewrite reconcile_counters. simpl.
  rewrite <-!length_filter_map_to_list.
  pose proof (length_attr_classes r2 (map_to_list r1)) as Hsum.
  rewrite length_map_to_list in Hsum. split_and!; lia.
Qed.

(** X3. A value of the first record that is not "NOASSERTION" is never
    replaced: whatever the second record says, the merged record keeps
    it. *)
Theorem reconcile_keeps_asserted (r1 r2 sbom : record) (c : counters)
    (k : string) (p1 : value) :
  r1 !! k = Some p1 → p1 ≠ NOASSERTION →
  (reconcile r1 r2 (sbom, c)).1 !! k = Some p1.
Proof.
  intros Hk Hne. rewrite reconcile_lookup, Hk. unfold resolve_value.
  destruct (r2 !! k) as [p2|]; [|done].
  case_decide; [done|]. by rewrite decide_False.
Qed.

Lemma reconcile_keeps_asserted_witness :
  (reconcile Scenarios.fileB Scenarios.fileA (initialise, counters_zero)).1
    !! "licenseconcluded" = Some (VStr "MIT").
Proof.
  apply (reconcile_keeps_asserted Scenarios.fileB Scenarios.fileA initialise
           counters_zero "licenseconcluded" (VStr "MIT"));
    [reflexivity|discriminate].
Defined.

Lemma length_filter_Forall {A : Type} (P : A → Prop) `{!∀ x, Decision (P x)}
    (l : list A) :
  Forall P l → length (filter P l) = length l.
Proof.
  induction 1 as [|x l Hx Hl IH]; [done|].
  rewrite filter_cons, decide_True by done. simpl. by rewrite IH.
Qed.

Lemma length_filter_Forall_not {A : Type} (P : A → Prop)
    `{!∀ x, Decision (P x)} (l : list A) :
  Forall (λ x, ¬ P x) l → length (filter P l) = 0.
Proof.
  induction 1 as [|x l Hx Hl IH]; [done|].
  by rewrite filter_cons, decide_False.
Qed.

(** Reconciling a record with an equal one, on a fresh builder. *)
Lemma reconcile_self (r : record) (c : counters) :
  reconcile r r (initialise, c) = (r, add_identical (size r) c).
Proof.
  apply injective_projections.
  - apply map_eq. intros k. rewrite reconcile_lookup. unfold initialise.
    destruct (r !! k) as [v|] eqn:Hk; simpl; [|by rewrite lookup_empty].
    unfold resolve_value. by rewrite decide_True.
  - rewrite reconcile_counters. unfold add_identical. simpl.
    rewrite <-!length_filter_map_to_list.
    assert (Forall (identical_attr r) (map_to_list r)) as Hall.
    { apply Forall_forall. intros [k v] Hkv%elem_of_map_to_list.
      unfold identical_attr. simpl. by rewrite Hkv. }
    rewrite (length_filter_Forall _ _ Hall), length_map_to_list.
    rewrite !length_filter_Forall_not; [f_equal; lia|..];
      (eapply Forall_impl; [exact Hall|]); intros [k v];
      unfold identical_attr, additional_attr, updated_attr; simpl;
      destruct (r !! k); naive_solver.
Qed.

(** ** The File Set Merger on whole documents *)

(** Among records with pairwise different names, a record is the only one
    of its name. *)
Lemma filter_same_name_unique (l : list record) (x : record) :
  NoDup (name_attr <$> l) → x ∈ l → filter (same_name x) l = [x].
Proof.
  induction l as [|y l IH]; intros Hnd Hx.
  { by apply elem_of_nil in Hx. }
  rewrite fmap_cons in Hnd. apply NoDup_cons in Hnd as [Hy Hnd].
  rewrite filter_cons. apply elem_of_cons in Hx as [->|Hx].
  - rewrite decide_True by done. f_equal.
    apply nil_length_inv, length_filter_Forall_not, Forall_forall.
    intros g Hg Hsame.
    apply Hy, list_elem_of_fmap. by exists g.
  - rewrite decide_False; [by apply IH|].
    intros Hsame. apply Hy, list_elem_of_fmap. by exists x.
Qed.

Lemma add_identical_add (n m : nat) (c : counters) :
  add_identical m (add_identical n c) = add_identical (n + m) c.
Proof. unfold add_identical. simpl. f_equal. lia. Qed.

Lemma add_merged_incr (n : nat) (c : counters) :
  add_merged n (incr_merged c) = add_merged (S n) c.
Proof. unfold add_merged, incr_merged. simpl. f_equal. lia. Qed.

Lemma add_identical_0 (c : counters) : add_identical 0 c = c.
Proof. destruct c. unfold add_identical. simpl. f_equal. lia. Qed.

Lemma add_merged_0 (c : counters) : add_merged 0 c = c.
Proof. destruct c. unfold add_merged. simpl. f_equal. lia. Qed.

(** A file of the first document whose exact copy is in the second
    document, where no two files share a name, is stored as it is and each
    of its attributes is counted as unchanged; no other counter moves. *)
Theorem exact_copy_file_stored (files2 : list record) (file : record)
    (files : files_dict) (c : counters) :
  file ∈ files2 → Forall has_name files2 → NoDup (name_attr <$> files2) →
  process_file1 files2 file (files, c)
  = Some (OrderedDict.set (get_name file) file files,
          add_identical (size file) c).
Proof.
  intros Hin Hall Hnd. rewrite process_file1_matched by done.
  rewrite filter_same_name_unique by done. cbn [foldl].
  by rewrite reconcile_self.
Qed.

Lemma exact_copy_file_stored_witness :
  process_file1 [Scenarios.fileA] Scenarios.fileA ([], counters_zero)
  = Some ([(VStr "a", Scenarios.fileA)], Counters 0 3 0 0).
Proof.
  apply (exact_copy_file_stored [Scenarios.fileA] Scenarios.fileA []
           counters_zero); by_decision.
Defined.

(** The first file loop on files that all have an exact copy in a second
    document with pairwise different names. *)
Lemma files1_loop_copies (files2 l : list record) (files : files_dict)
    (c : counters) :
  Forall has_name files2 → NoDup (name_attr <$> files2) →
  (∀ f, f ∈ l → f ∈ files2) →
  for_each (process_file1 files2) l (files, c)
  = Some (store_all get_name l files, add_identical (attributes l) c).
Proof.
  intros Hall Hnd. revert files c.
  induction l as [|f l IH]; intros files c Hsub.
  - simpl. by rewrite add_identical_0.
  - cbn [for_each]. rewrite exact_copy_file_stored; [|apply Hsub; by left|done..].
    simpl. rewrite IH by (intros g Hg; apply Hsub; by right).
    by rewrite add_identical_add.
Qed.

(** The second file loop skips a file that has an exact copy in the first
    document. *)
Lemma process_file2_skip (files1 : list record) (file : record)
    (st : files_dict * counters) :
  file ∈ files1 → process_file2 files1 file st = Some st.
Proof.
  intros Hf. destruct st as [files c]. unfold process_file2.
  rewrite decide_True
    by (destruct files1; [by apply elem_of_nil in Hf|simpl; lia]).
  by rewrite decide_False by (intros H; by apply H).
Qed.

Lemma files2_loop_skips (files1 l : list record) (st : files_dict * counters) :
  (∀ f, f ∈ l → f ∈ files1) →
  for_each (process_file2 files1) l st = Some st.
Proof.
  revert st. induction l as [|f l IH]; intros st Hsub; [done|].
  cbn [for_each]. rewrite process_file2_skip by (apply Hsub; by left). simpl.
  apply IH. intros g Hg. apply Hsub. by right.
Qed.

(** Merging the files of a document with an equal list of files, all
    named and no two of the same name: every file is stored as it is, all
    their attributes are counted as unchanged, and the updated, new and
    merged counters do not move. *)
Theorem merge_files_same (l : list record) (c : counters) :
  Forall has_name l → NoDup (name_attr <$> l) →
  merge_files l l c
  = Some (store_all get_name l [], add_identical (attributes l) c).
Proof.
  intros Hall Hnd. unfold merge_files.
  rewrite files1_loop_copies by done. simpl.
  by apply files2_loop_skips.
Qed.

Lemma merge_files_same_witness :
  merge_files [Scenarios.fileA; Scenarios.pkgX] [Scenarios.fileA; Scenarios.pkgX]
    counters_zero
  = Some ([(VStr "a", Scenarios.fileA); (VStr "x", Scenarios.pkgX)],
          Counters 0 4 0 0).
Proof.
  apply (merge_files_same [Scenarios.fileA; Scenarios.pkgX] counters_zero);
    by_decision.
Defined.

(** The two file loops on files without an exact copy on the other side. *)
Lemma files1_loop_unmatched (files2 l : list record) (files : files_dict)
    (c : counters) :
  Forall has_name l → (∀ f, f ∈ l → f ∉ files2) →
  for_each (process_file1 files2) l (files, c)
  = Some (store_all get_name l files, add_merged (length l) c).
Proof.
  intros Hall. revert files c.
  induction Hall as [|f l Hf Hall IH]; intros files c Hnot.
  - simpl. by rewrite add_merged_0.
  - cbn [for_each]. rewrite process_file1_unmatched; [|apply Hnot; by left|done].
    simpl. rewrite IH by (intros g Hg; apply Hnot; by right).
    by rewrite add_merged_incr.
Qed.

Lemma process_file2_unmatched (files1 : list record) (file : record)
    (files : files_dict) (c : counters) :
  files1 ≠ [] → file ∉ files1 → has_name file →
  process_file2 files1 file (files, c)
  = Some (OrderedDict.set (get_name file) file files, incr_merged c).
Proof.
  intros Hne Hnot [n Hn]. unfold process_file2, getitem.
  rewrite decide_True by (destruct files1; [done|simpl; lia]).
  rewrite decide_True by done. rewrite Hn. simpl.
  by rewrite copy_record_initialise.
Qed.

Lemma files2_loop_unmatched (files1 l : list record) (files : files_dict)
    (c : counters) :
  files1 ≠ [] → Forall has_name l → (∀ f, f ∈ l → f ∉ files1) →
  for_each (process_file2 files1) l (files, c)
  = Some (store_all get_name l files, add_merged (length l) c).
Proof.
  intros Hne Hall. revert files c.
  induction Hall as [|f l Hf Hall IH]; intros files c Hnot.
  - simpl. by rewrite add_merged_0.
  - cbn [for_each].
    rewrite process_file2_unmatched; [|done|apply Hnot; by left|done].
    simpl. rewrite IH by (intros g Hg; apply Hnot; by right).
    by rewrite add_merged_incr.
Qed.

Lemma store_all_app {K : Type} `{EqDecision K} (key : record → K)
    (l1 l2 : list record) (d : odict K record) :
  store_all key (l1 ++ l2) d = store_all key l2 (store_all key l1 d).
Proof. unfold store_all. apply foldl_app. Qed.

(** X4. When the first document has files and no file of it equals a file
    of the second, nothing is reconciled, whatever the names: every file of
    both documents is copied under its name, first document first (a later
    file replacing an earlier one of the same name), and only the merged
    counter moves, once for each file. *)
Theorem merge_files_disjoint (files1 files2 : list record) (c : counters) :
  files1 ≠ [] → Forall has_name files1 → Forall has_name files2 →
  (∀ f, f ∈ files1 → f ∉ files2) →
  merge_files files1 files2 c
  = Some (store_all get_name (files1 ++ files2) [],
          add_merged (length files1 + length files2) c).
Proof.
  intros Hne H1 H2 Hdisj. unfold merge_files.
  rewrite files1_loop_unmatched by done. simpl.
  rewrite files2_loop_unmatched; [|done..|].
  - rewrite store_all_app. do 2 f_equal.
    unfold add_merged. simpl. f_equal. lia.
  - intros g Hg Hg1. by apply (Hdisj g).
Qed.

Lemma merge_files_disjoint_witness :
  merge_files [Scenarios.fileA] [Scenarios.fileB] counters_zero
  = Some ([(VStr "a", Scenarios.fileB)], Counters 0 0 0 2).
Proof.
  apply (merge_files_disjoint [Scenarios.fileA] [Scenarios.fileB] counters_zero).
  - discriminate.
  - by_decision.
  - by_decision.
  - intros f ->%list_elem_of_singleton. by_decision.
Defined.

(** ** When the mergers raise *)

Lemma for_each_None {A S : Type} (body : A → S → option S) (l : list A)
    (x : A) (s : S) :
  x ∈ l → (∀ t, body x t = None) → for_each body l s = None.
Proof.
  intros Hx Hbody. revert s.
  induction l as [|y l IH]; intros s; [by apply elem_of_nil in Hx|].
  cbn [for_each]. apply elem_of_cons in Hx as [->|Hx].
  - by rewrite Hbody.
  - destruct (body y s) as [t|]; simpl; [by apply IH|done].
Qed.

Lemma not_has_name (r : record) : ¬ has_name r → getitem "name" r = None.
Proof. unfold has_name, getitem. apply eq_None_not_Some. Qed.

Lemma merge_file_match_nameless (file g : record) (st : record * counters) :
  getitem "name" file = None → merge_file_match file g st = None.
Proof.
  intros Hn. unfold merge_file_match. rewrite Hn.
  by destruct (getitem "name" g).
Qed.

Lemma merge_package_match_nameless (package g : record) (st : package_acc) :
  getitem "name" package = None → merge_package_match package g st = None.
Proof.
  intros Hn. destruct st as [[sbom c] log]. unfold merge_package_match.
  rewrite Hn. by destruct (getitem "name" g).
Qed.

(** A file of the first document without a name raises [KeyError], in
    either branch of line 132. *)
Lemma process_file1_nameless (files2 : list record) (file : record)
    (st : files_dict * counters) :
  ¬ has_name file → process_file1 files2 file st = None.
Proof.
  intros Hn%not_has_name. destruct st as [files c]. unfold process_file1.
  rewrite Hn. destruct (decide (file ∈ files2)) as [Hin|Hnin]; [|done].
  destruct files2 as [|g files2]; [by apply elem_of_nil in Hin|].
  cbn [for_each]. by rewrite merge_file_match_nameless.
Qed.

Lemma process_file2_nameless (files1 : list record) (file : record)
    (st : files_dict * counters) :
  files1 ≠ [] → file ∉ files1 → ¬ has_name file →
  process_file2 files1 file st = None.
Proof.
  intros Hne Hnot Hn%not_has_name. destruct st as [files c].
  unfold process_file2.
  rewrite decide_True by (destruct files1; [done|simpl; lia]).
  rewrite decide_True by done. by rewrite Hn.
Qed.

Lemma merge_files_is_Some (files1 files2 : list record) (c : counters) :
  Forall has_name files1 → (files1 ≠ [] → Forall has_name files2) →
  is_Some (merge_files files1 files2 c).
Proof.
  intros H1 H2. unfold merge_files. destruct files1 as [|f files1].
  - simpl. by rewrite files2_loop_degenerate.
  - destruct (for_each_is_Some (process_file1 files2) (f :: files1) ([], c))
      as [st1 ->].
    { intros g st Hg. apply process_file1_is_Some; [|by apply H2].
      by apply (proj1 (Forall_forall _ _) H1). }
    simpl. apply for_each_is_Some. intros g st Hg.
    apply process_file2_is_Some.
    by apply (proj1 (Forall_forall _ _) (H2 ltac:(done))).
Qed.

(** The file merger returns exactly when every file of the first
    document has a name and, unless the first document has no file, every
    file of the second has one too; otherwise a lookup of "name" raises. *)
Theorem merge_files_returns_iff (files1 files2 : list record) (c : counters) :
  is_Some (merge_files files1 files2 c)
  ↔ Forall has_name files1 ∧ (files1 ≠ [] → Forall has_name files2).
Proof.
  split; [|intros [H1 H2]; by apply merge_files_is_Some].
  intros Hsome.
  assert (Forall has_name files1) as H1.
  { apply Forall_forall. intros f Hf.
    destruct (decide (has_name f)) as [|Hn]; [done|]. exfalso.
    unfold merge_files in Hsome.
    rewrite (for_each_None _ _ f _ Hf) in Hsome; [by destruct Hsome|].
    intros t. by apply process_file1_nameless. }
  split; [done|]. intros Hne. apply Forall_forall. intros g Hg.
  destruct (decide (has_name g)) as [|Hn]; [done|]. exfalso.
  destruct (decide (g ∈ files1)) as [Hg1|Hg1].
  { by apply Hn, (proj1 (Forall_forall _ _) H1). }
  unfold merge_files in Hsome.
  destruct (for_each (process_file1 files2) files1 ([], c)) as [st1|];
    simpl in Hsome; [|by destruct Hsome].
  rewrite (for_each_None _ _ g _ Hg) in Hsome; [by destruct Hsome|].
  intros t. by apply process_file2_nameless.
Qed.

Lemma merge_files_returns_iff_witness :
  is_Some (merge_files [Scenarios.fileA] [Scenarios.fileB] counters_zero)
  ∧ ¬ is_Some (merge_files [Scenarios.fileA] [∅] counters_zero).
Proof.
  split.
  - apply (proj2 (merge_files_returns_iff [Scenarios.fileA] [Scenarios.fileB]
                    counters_zero)).
    split; [by_decision|intros _; by_decision].
  - intros H.
    apply (proj1 (merge_files_returns_iff [Scenarios.fileA] [∅] counters_zero))
      in H as [_ H].
    specialize (H ltac:(discriminate)). revert H. by_decision.
Defined.

(** A package without a name raises [KeyError] in either package loop. *)
Lemma process_package1_nameless (packages2 : list record) (package : record)
    (st : packages_state) :
  ¬ has_name package → process_package1 packages2 package st = None.
Proof.
  intros Hn%not_has_name. destruct st as [[packages c] log].
  unfold process_package1. rewrite Hn.
  destruct (decide (package ∈ packages2)) as [Hin|Hnin]; [|done].
  destruct packages2 as [|g packages2]; [by apply elem_of_nil in Hin|].
  cbn [for_each]. by rewrite merge_package_match_nameless.
Qed.

Lemma process_package2_nameless (packages1 : list record) (package : record)
    (st : packages_state) :
  package ∉ packages1 → ¬ has_name package →
  process_package2 packages1 package st = None.
Proof.
  intros Hnot Hn%not_has_name. destruct st as [[packages c] log].
  unfold process_package2. rewrite decide_True by done. by rewrite Hn.
Qed.

Lemma merge_packages_is_Some (root_package : string)
    (packages1 packages2 : list record) (c : counters) :
  Forall has_name packages1 → Forall has_name packages2 →
  is_Some (merge_packages root_package packages1 packages2 c).
Proof.
  intros H1 H2. unfold merge_packages.
  match goal with |- context [for_each (process_package1 ?l2) ?l1 ?s] =>
    destruct (for_each_is_Some (process_package1 l2) l1 s) as [st1 ->] end.
  { intros p st Hp. apply process_package1_is_Some; [|done].
    by apply (proj1 (Forall_forall _ _) H1). }
  simpl. apply for_each_is_Some. intros p st Hp.
  apply process_package2_is_Some. by apply (proj1 (Forall_forall _ _) H2).
Qed.

(** The package merger returns exactly when every package of both
    documents has a name; otherwise a lookup of "name" raises. *)
Theorem merge_packages_returns_iff (root_package : string)
    (packages1 packages2 : list record) (c : counters) :
  is_Some (merge_packages root_package packages1 packages2 c)
  ↔ Forall has_name (packages1 ++ packages2).
Proof.
  rewrite Forall_app. split; [|intros [H1 H2]; by apply merge_packages_is_Some].
  intros Hsome.
  assert (Forall has_name packages1) as H1.
  { apply Forall_forall. intros p Hp.
    destruct (decide (has_name p)) as [|Hn]; [done|]. exfalso.
    unfold merge_packages in Hsome.
    rewrite (for_each_None _ _ p _ Hp) in Hsome; [by destruct Hsome|].
    intros t. by apply process_package1_nameless. }
  split; [done|]. apply Forall_forall. intros g Hg.
  destruct (decide (has_name g)) as [|Hn]; [done|]. exfalso.
  destruct (decide (g ∈ packages1)) as [Hg1|Hg1].
  { by apply Hn, (proj1 (Forall_forall _ _) H1). }
  unfold merge_packages in Hsome.
  destruct (for_each (process_package1 packages2) packages1 _) as [st1|];
    simpl in Hsome; [|by destruct Hsome].
  rewrite (for_each_None _ _ g _ Hg) in Hsome; [by destruct Hsome|].
  intros t. by apply process_package2_nameless.
Qed.

Lemma merge_packages_returns_iff_witness :
  is_Some (merge_packages Scenarios.root [Scenarios.libfoo1] [Scenarios.libfoo2]
             counters_zero)
  ∧ ¬ is_Some (merge_packages Scenarios.root [] [∅] counters_zero).
Proof.
  split.
  - apply (proj2 (merge_packages_returns_iff Scenarios.root [Scenarios.libfoo1]
                    [Scenarios.libfoo2] counters_zero)). by_decision.
  - intros H.
    apply (proj1 (merge_packages_returns_iff Scenarios.root [] [∅]
                    counters_zero)) in H.
    revert H. by_decision.
Defined.

(** ** The keys of the merged mappings *)

Lemma store_all_keys {K : Type} `{EqDecision K} (key : record → K)
    (l : list record) (d : odict K record) (k : K) :
  k ∈ OrderedDict.keys (store_all key l d)
  ↔ k ∈ OrderedDict.keys d ∨ k ∈ key <$> l.
Proof.
  revert d. induction l as [|x l IH]; intros d.
  - simpl. rewrite elem_of_nil. tauto.
  - change (store_all key (x :: l) d)
      with (store_all key l (OrderedDict.set (key x) x d)).
    rewrite IH, elem_of_keys_set, fmap_cons, elem_of_cons. tauto.
Qed.

(** What the first file loop stores is stored under the name of the
    file. *)
Lemma process_file1_key (files2 : list record) (file : record)
    (files files' : files_dict) (c c' : counters) :
  process_file1 files2 file (files, c) = Some (files', c') →
  ∃ sbom_file, files' = OrderedDict.set (get_name file) sbom_file files.
Proof.
  intros Hrun. destruct (decide (has_name file)) as [[n Hn]|Hn].
  - apply process_file1_stores in Hrun as (sbom_file & -> & Hname).
    exists sbom_file. by rewrite (Hname n Hn), (get_name_Some file n Hn).
  - by rewrite process_file1_nameless in Hrun.
Qed.

Lemma files1_loop_keys_from (files2 l : list record)
    (st st' : files_dict * counters) (k : value) :
  for_each (process_file1 files2) l st = Some st' →
  k ∈ OrderedDict.keys st'.1 →
  k ∈ OrderedDict.keys st.1 ∨ k ∈ get_name <$> l.
Proof.
  revert st. induction l as [|file l IH]; intros [files c] Hrun Hk;
    cbn [for_each] in Hrun.
  - simplify_eq. by left.
  - destruct (process_file1 files2 file (files, c)) as [[files' c1]|] eqn:Hstep;
      simpl in Hrun; [|done].
    apply process_file1_key in Hstep as (sbom_file & ->).
    destruct (IH _ Hrun Hk) as [Hin|Hin]; simpl in *.
    + apply elem_of_keys_set in Hin as [->|Hin]; [right; by left|by left].
    + right. by right.
Qed.

Lemma files2_loop_keys_from (files1 l : list record)
    (st st' : files_dict * counters) (k : value) :
  for_each (process_file2 files1) l st = Some st' →
  k ∈ OrderedDict.keys st'.1 →
  k ∈ OrderedDict.keys st.1 ∨ k ∈ get_name <$> l.
Proof.
  revert st. induction l as [|file l IH]; intros [files c] Hrun Hk;
    cbn [for_each] in Hrun.
  - simplify_eq. by left.
  - destruct (process_file2 files1 file (files, c)) as [[files' c1]|] eqn:Hstep;
      simpl in Hrun; [|done].
    destruct (IH _ Hrun Hk) as [Hin|Hin]; simpl in *; [|right; by right].
    apply process_file2_stores in Hstep as [[_ ->]| ->]; [by left|].
    apply elem_of_keys_set in Hin as [->|Hin]; [right; by left|by left].
Qed.

(** X5. The keys of the merged file mapping are exactly the names of the
    files of the two documents: no file is left without an entry under its
    name, and no entry is made under another key. *)
Theorem merged_file_names (files1 files2 : list record) (c c' : counters)
    (files : files_dict) (k : value) :
  merge_files files1 files2 c = Some (files, c') →
  k ∈ OrderedDict.keys files ↔ k ∈ get_name <$> (files1 ++ files2).
Proof.
  intros Hmerge. rewrite fmap_app, elem_of_app. split.
  - unfold merge_files in Hmerge.
    destruct (for_each (process_file1 files2) files1 ([], c)) as [st1|] eqn:H1;
      simpl in Hmerge; [|done].
    intros Hk.
    destruct (files2_loop_keys_from _ _ _ _ k Hmerge Hk) as [Hk1|Hk2];
      [|by right].
    destruct (files1_loop_keys_from _ _ _ _ k H1 Hk1) as [Hnil|Hk1'];
      [by apply elem_of_nil in Hnil|by left].
  - intros Hk. destruct files1 as [|f0 files1].
    + unfold merge_files in Hmerge. simpl in Hmerge.
      rewrite files2_loop_degenerate in Hmerge. simplify_eq.
      apply store_all_keys. destruct Hk as [Hk|Hk]; [|by right].
      by apply elem_of_nil in Hk.
    + assert (is_Some (merge_files (f0 :: files1) files2 c)) as Hsome by eauto.
      apply merge_files_returns_iff in Hsome as [Hn1 Hn2].
      specialize (Hn2 ltac:(done)).
      assert (∃ f, f ∈ (f0 :: files1) ++ files2 ∧ get_name f = k)
        as (f & Hf & <-).
      { destruct Hk as [Hk|Hk];
          apply list_elem_of_fmap in Hk as (f & -> & Hf); exists f;
          (split; [|done]); apply elem_of_app; [by left|by right]. }
      assert (has_name f) as [n Hn].
      { apply elem_of_app in Hf as [Hf|Hf];
          [by apply (proj1 (Forall_forall _ _) Hn1)
          |by apply (proj1 (Forall_forall _ _) Hn2)]. }
      rewrite (get_name_Some f n Hn).
      by eapply merge_files_keys.
Qed.

Lemma merged_file_names_witness :
  VStr "a" ∈ OrderedDict.keys [(VStr "a", Scenarios.fileB)]
  ↔ VStr "a" ∈ get_name <$> ([Scenarios.fileA] ++ [Scenarios.fileB]).
Proof.
  apply (merged_file_names [Scenarios.fileA] [Scenarios.fileB] counters_zero
           (Counters 0 0 0 2)).
  by_evaluation.
Defined.

(** ** The Package Set Merger on whole documents *)

Lemma filter_same_name_and (R : record → Prop) `{!∀ g, Decision (R g)}
    (l : list record) (x : record) :
  NoDup (name_attr <$> l) → x ∈ l →
  filter (λ g, same_name x g ∧ R g) l = if decide (R x) then [x] else [].
Proof.
  induction l as [|y l IH]; intros Hnd Hx.
  { by apply elem_of_nil in Hx. }
  rewrite fmap_cons in Hnd. apply NoDup_cons in Hnd as [Hy Hnd].
  rewrite filter_cons. apply elem_of_cons in Hx as [->|Hx].
  - assert (filter (λ g, same_name y g ∧ R g) l = []) as ->.
    { apply nil_length_inv, length_filter_Forall_not, Forall_forall.
      intros g Hg [Hsame _]. apply Hy, list_elem_of_fmap. by exists g. }
    destruct (decide (R y)).
    + rewrite decide_True; [done|]. by split.
    + rewrite decide_False; [done|tauto].
  - rewrite decide_False; [by apply IH|].
    intros [Hsame _]. apply Hy, list_elem_of_fmap. by exists x.
Qed.

Lemma version_conflict_self (package : record) : ¬ version_conflict package package.
Proof.
  unfold version_conflict.
  destruct (package !! "version"); intros H; [by apply H|exact H].
Qed.

(** A package of the first document whose exact copy is in the
    second document, where no two packages share a name, is stored as it
    is under its name and version, each of its attributes is counted as
    unchanged, and nothing is logged. *)
Theorem exact_copy_package_stored (packages2 : list record) (package : record)
    (packages : packages_dict) (c : counters) (log : list string) :
  package ∈ packages2 → Forall has_name packages2 →
  NoDup (name_attr <$> packages2) →
  process_package1 packages2 package (packages, c, log)
  = Some (OrderedDict.set (package_key_of package) package packages,
          add_identical (size package) c, log).
Proof.
  intros Hin Hall Hnd. unfold process_package1. rewrite decide_True by done.
  rewrite pair_all_packages;
    [|by apply (proj1 (Forall_forall _ _) Hall)|done].
  rewrite !filter_same_name_and by done.
  rewrite decide_True by apply version_conflict_self.
  rewrite decide_False by (intros H; by apply (version_conflict_self package)).
  cbn [foldl]. rewrite reconcile_self. simpl. by rewrite app_nil_r.
Qed.

Lemma exact_copy_package_stored_witness :
  process_package1 [Scenarios.libA1; Scenarios.pkgX] Scenarios.libA1
    ([], counters_zero, [])
  = Some ([((VStr "libA", VStr "1.0"), Scenarios.libA1)], Counters 0 3 0 0, []).
Proof.
  apply (exact_copy_package_stored [Scenarios.libA1; Scenarios.pkgX]
           Scenarios.libA1 [] counters_zero []); by_decision.
Defined.

Lemma packages1_loop_copies (packages2 l : list record)
    (packages : packages_dict) (c : counters) (log : list string) :
  Forall has_name packages2 → NoDup (name_attr <$> packages2) →
  (∀ p, p ∈ l → p ∈ packages2) →
  for_each (process_package1 packages2) l (packages, c, log)
  = Some (store_all package_key_of l packages,
          add_identical (attributes l) c, log).
Proof.
  intros Hall Hnd. revert packages c.
  induction l as [|p l IH]; intros packages c Hsub.
  - simpl. by rewrite add_identical_0.
  - cbn [for_each].
    rewrite exact_copy_package_stored; [|apply Hsub; by left|done..].
    simpl. rewrite IH by (intros g Hg; apply Hsub; by right).
    by rewrite add_identical_add.
Qed.

Lemma process_package2_skip (packages1 : list record) (package : record)
    (st : packages_state) :
  package ∈ packages1 → process_package2 packages1 package st = Some st.
Proof.
  intros Hp. destruct st as [[packages c] log]. unfold process_package2.
  by rewrite decide_False by (intros H; by apply H).
Qed.

Lemma packages2_loop_skips (packages1 l : list record) (st : packages_state) :
  (∀ p, p ∈ l → p ∈ packages1) →
  for_each (process_package2 packages1) l st = Some st.
Proof.
  revert st. induction l as [|p l IH]; intros st Hsub; [done|].
  cbn [for_each]. rewrite process_package2_skip by (apply Hsub; by left).
  simpl. apply IH. intros g Hg. apply Hsub. by right.
Qed.

(** Merging the packages of a document with an equal list of
    packages, all named and no two of the same name: after the root
    package every package is stored as it is, all their attributes are
    counted as unchanged, no other counter moves and nothing is logged. *)
Theorem merge_packages_same (root_package : string) (l : list record)
    (c : counters) :
  Forall has_name l → NoDup (name_attr <$> l) →
  merge_packages root_package l l c
  = Some (store_all package_key_of l (root_only root_package),
          add_identical (attributes l) c, []).
Proof.
  intros Hall Hnd. unfold merge_packages.
  rewrite root_package_key. cbn [OrderedDict.set].
  rewrite packages1_loop_copies by done. simpl.
  by apply packages2_loop_skips.
Qed.

Lemma merge_packages_same_witness :
  merge_packages Scenarios.root [Scenarios.libA1; Scenarios.pkgX]
    [Scenarios.libA1; Scenarios.pkgX] counters_zero
  = Some ([((VStr Scenarios.root, VNone), root_package_record Scenarios.root);
           ((VStr "libA", VStr "1.0"), Scenarios.libA1);
           ((VStr "x", VNone), Scenarios.pkgX)],
          Counters 0 4 0 0, []).
Proof.
  apply (merge_packages_same Scenarios.root [Scenarios.libA1; Scenarios.pkgX]
           counters_zero); by_decision.
Defined.

Lemma packages1_loop_unmatched (packages2 l : list record)
    (packages : packages_dict) (c : counters) (log : list string) :
  Forall has_name l → (∀ p, p ∈ l → p ∉ packages2) →
  for_each (process_package1 packages2) l (packages, c, log)
  = Some (store_all package_key_of l packages, add_merged (length l) c, log).
Proof.
  intros Hall. revert packages c.
  induction Hall as [|p l Hp Hall IH]; intros packages c Hnot.
  - simpl. by rewrite add_merged_0.
  - cbn [for_each].
    rewrite process_package1_unmatched; [|apply Hnot; by left|done].
    simpl. rewrite IH by (intros g Hg; apply Hnot; by right).
    by rewrite add_merged_incr.
Qed.

Lemma process_package2_unmatched (packages1 : list record) (package : record)
    (packages : packages_dict) (c : counters) (log : list string) :
  package ∉ packages1 → has_name package →
  process_package2 packages1 package (packages, c, log)
  = Some (OrderedDict.set (package_key_of package) package packages,
          incr_merged c, log).
Proof.
  intros Hnot [n Hn]. unfold process_package2, getitem.
  rewrite decide_True by done. rewrite Hn. simpl.
  by rewrite copy_record_initialise.
Qed.

Lemma packages2_loop_unmatched (packages1 l : list record)
    (packages : packages_dict) (c : counters) (log : list string) :
  Forall has_name l → (∀ p, p ∈ l → p ∉ packages1) →
  for_each (process_package2 packages1) l (packages, c, log)
  = Some (store_all package_key_of l packages, add_merged (length l) c, log).
Proof.
  intros Hall. revert packages c.
  induction Hall as [|p l Hp Hall IH]; intros packages c Hnot.
  - simpl. by rewrite add_merged_0.
  - cbn [for_each].
    rewrite process_package2_unmatched; [|apply Hnot; by left|done].
    simpl. rewrite IH by (intros g Hg; apply Hnot; by right).
    by rewrite add_merged_incr.
Qed.

(** X6. When no package of the first document equals a package of the
    second, the version guard is never reached, whatever the names and
    versions: every package of both documents is copied under its name and
    version after the root package, the merged counter moves once for each
    package, and the log stays empty. *)
Theorem merge_packages_disjoint (root_package : string)
    (packages1 packages2 : list record) (c : counters) :
  Forall has_name packages1 → Forall has_name packages2 →
  (∀ p, p ∈ packages1 → p ∉ packages2) →
  merge_packages root_package packages1 packages2 c
  = Some (store_all package_key_of (packages1 ++ packages2)
            (root_only root_package),
          add_merged (length packages1 + length packages2) c, []).
Proof.
  intros H1 H2 Hdisj. unfold merge_packages.
  rewrite root_package_key. cbn [OrderedDict.set].
  rewrite packages1_loop_unmatched by done. simpl.
  rewrite packages2_loop_unmatched; [|done|].
  - rewrite store_all_app.
    assert (add_merged (length packages2) (add_merged (length packages1) c)
            = add_merged (length packages1 + length packages2) c) as ->
      by (unfold add_merged; simpl; f_equal; lia).
    done.
  - intros g Hg Hg1. by apply (Hdisj g).
Qed.

Lemma merge_packages_disjoint_witness :
  merge_packages Scenarios.root [Scenarios.libfoo1] [Scenarios.libfoo2]
    counters_zero
  = Some ([((VStr Scenarios.root, VNone), root_package_record Scenarios.root);
           ((VStr "libfoo", VStr "1.0"), Scenarios.libfoo1);
           ((VStr "libfoo", VStr "2.0"), Scenarios.libfoo2)],
          Counters 0 0 0 2, []).
Proof.
  apply (merge_packages_disjoint Scenarios.root [Scenarios.libfoo1]
           [Scenarios.libfoo2] counters_zero).
  - by_decision.
  - by_decision.
  - intros p ->%list_elem_of_singleton. by_decision.
Defined.

(** ** The root package in the package mapping *)

Lemma set_head {K V : Type} `{EqDecision K} (k k0 : K) (v v0 : V)
    (d : odict K V) :
  ∃ v1 tl, OrderedDict.set k v ((k0, v0) :: d) = (k0, v1) :: tl
           ∧ (k ≠ k0 → v1 = v0).
Proof.
  cbn [OrderedDict.set]. destruct (decide (k0 = k)) as [->|Hne].
  - by exists v, d.
  - by exists v0, (OrderedDict.set k v d).
Qed.

(** What the first package loop stores is stored under the name of the
    package. *)
Lemma process_package1_key (packages2 : list record) (package : record)
    (packages packages' : packages_dict) (c c' : counters)
    (log log' : list string) :
  process_package1 packages2 package (packages, c, log)
  = Some (packages', c', log') →
  ∃ version sbom_package,
    packages' = OrderedDict.set (get_name package, version) sbom_package packages.
Proof.
  intros Hrun. destruct (decide (has_name package)) as [[n Hn]|Hn].
  - apply process_package1_stores in Hrun as (sbom_package & -> & Hname).
    exists (get_value "version" sbom_package), sbom_package.
    unfold package_key_of.
    by rewrite (Hname n Hn), (get_name_Some package n Hn).
  - by rewrite process_package1_nameless in Hrun.
Qed.

(** X7. The root package is the first entry of the merged package
    mapping, under its name and no version; its record is the synthetic
    one unless a package of an input document bears the name of the root
    package. *)
Theorem root_package_first (root_package : string)
    (packages1 packages2 : list record) (c c' : counters)
    (packages : packages_dict) (log : list string) :
  merge_packages root_package packages1 packages2 c = Some (packages, c', log) →
  ∃ root_record tl,
    packages = ((VStr root_package, VNone), root_record) :: tl
    ∧ ((∀ p, p ∈ packages1 ++ packages2 → get_name p ≠ VStr root_package) →
       root_record = root_package_record root_package).
Proof.
  unfold merge_packages. rewrite root_package_key. cbn [OrderedDict.set].
  set (noclash := ∀ p, p ∈ packages1 ++ packages2 → get_name p ≠ VStr root_package).
  set (I := λ st : packages_state,
         ∃ root_record tl,
           st.1.1 = ((VStr root_package, VNone), root_record) :: tl
           ∧ (noclash → root_record = root_package_record root_package)).
  destruct (for_each (process_package1 packages2) packages1 _) as [st1|] eqn:H1;
    simpl; [|done].
  intros H2.
  assert (I st1) as Hst1.
  { eapply (for_each_invariant _ I); [|..|exact H1].
    - intros p [[pk ck] lk] [[pk' ck'] lk'] Hp (rec & tl & Hpk & Hrec) Hstep.
      simpl in Hpk. subst pk.
      apply process_package1_key in Hstep as (version & sbom_package & ->).
      destruct (set_head (get_name p, version) (VStr root_package, VNone)
                  sbom_package rec tl) as (v1 & tl' & -> & Hv1).
      exists v1, tl'. split; [done|]. intros Hno. rewrite Hv1; [by apply Hrec|].
      intros [= Heq _]. apply (Hno p); [apply elem_of_app; by left|done].
    - exists (root_package_record root_package), []. by split. }
  change (I (packages, c', log)).
  eapply (for_each_invariant _ I); [|exact Hst1|exact H2].
  intros p [[pk ck] lk] [[pk' ck'] lk'] Hp (rec & tl & Hpk & Hrec) Hstep.
  simpl in Hpk. subst pk.
  apply process_package2_stores in Hstep as [[_ ->]| ->].
  { by exists rec, tl. }
  destruct (set_head (package_key_of p) (VStr root_package, VNone) p rec tl)
    as (v1 & tl' & -> & Hv1).
  exists v1, tl'. split; [done|]. intros Hno. rewrite Hv1; [by apply Hrec|].
  unfold package_key_of. intros [= Heq _].
  apply (Hno p); [apply elem_of_app; by right|done].
Qed.

Lemma root_package_first_witness :
  ∃ root_record tl,
    [((VStr Scenarios.root, VNone), root_package_record Scenarios.root);
     ((VStr "libfoo", VStr "1.0"), Scenarios.libfoo1);
     ((VStr "libfoo", VStr "2.0"), Scenarios.libfoo2)]
    = ((VStr Scenarios.root, VNone), root_record) :: tl
    ∧ ((∀ p, p ∈ [Scenarios.libfoo1] ++ [Scenarios.libfoo2] →
             get_name p ≠ VStr Scenarios.root) →
       root_record = root_package_record Scenarios.root).
Proof.
  apply (root_package_first Scenarios.root [Scenarios.libfoo1]
           [Scenarios.libfoo2] counters_zero (Counters 0 0 0 2) _ []).
  by_evaluation.
Defined.

(** A package of an input that bears the name of the root package and has
    no version takes the place of the synthetic record. *)
Example root_package_overwritten :
  let clash : record := {[ "name" := VStr Scenarios.root ]} in
  merge_packages Scenarios.root [clash] [] counters_zero
  = Some ([((VStr Scenarios.root, VNone), clash)], Counters 0 0 0 1, []).
Proof. intros clash. by_evaluation. Qed.

(** ** The Relationship Rebuilder, endpoint kinds and errors *)

Lemma named_in_cons (m : value) (f : record) (l : list record) :
  named_in m (f :: l) ↔ f !! "name" = Some m ∨ named_in m l.
Proof. unfold named_in. apply Exists_cons. Qed.

(** The kinds after the scan of the files: an endpoint found among the
    files is a "file". *)
Lemma resolve_file_kinds (r : relationship) (l : list record) (st st' : endpoints) :
  for_each (resolve_file r) l st = Some st' →
  st'.1.2 = (if decide (named_in (rel_source r) l) then "file" else st.1.2)
  ∧ st'.2 = (if decide (rel_source r ≠ rel_target r
                        ∧ named_in (rel_target r) l)
             then "file" else st.2).
Proof.
  revert st. induction l as [|f l IH]; intros st Hrun; cbn [for_each] in Hrun.
  - simplify_eq. split; rewrite decide_False; try done.
    + by intros ?%Exists_nil.
    + intros [_ ?%Exists_nil]. done.
  - destruct (resolve_file r f st) as [st1|] eqn:Hstep; simpl in Hrun; [|done].
    destruct st as [[[s t] sty] tty]. unfold resolve_file, getitem in Hstep.
    destruct (f !! "name") as [n|] eqn:Hf; simpl in Hstep; [|done].
    apply IH in Hrun as [-> ->].
    destruct (decide (n = rel_source r)) as [Heq|Hns];
      [|destruct (decide (n = rel_target r)) as [Heqt|Hnt]];
      injection Hstep as <-; simpl.
    + split.
      * rewrite (decide_True (P := named_in _ (f :: l)))
          by (apply named_in_cons; left; congruence).
        by destruct (decide _).
      * apply decide_ext. rewrite named_in_cons, Hf. split.
        -- intros [? ?]. split; [done|by right].
        -- intros [Hne [?|?]]; [congruence|done].
    + split.
      * apply decide_ext. rewrite named_in_cons, Hf. split.
        -- by right.
        -- intros [?|?]; [congruence|done].
      * rewrite (decide_True (P := _ ∧ named_in _ (f :: l))).
        -- by destruct (decide (_ ∧ _)).
        -- split; [congruence|]. apply named_in_cons. left. congruence.
    + split; apply decide_ext; rewrite named_in_cons, Hf.
      * split; [by right|]. intros [?|?]; [congruence|done].
      * split; [intros [? ?]; split; [done|by right]|].
        intros [Hne [?|?]]; [congruence|done].
Qed.

(** The scan of the packages leaves the kinds as they are. *)
Lemma resolve_package_kinds (r : relationship) (l : list record)
    (st st' : endpoints) :
  for_each (resolve_package r) l st = Some st' →
  st'.1.2 = st.1.2 ∧ st'.2 = st.2.
Proof.
  intros Hrun.
  eapply (for_each_invariant _ (λ t, t.1.2 = st.1.2 ∧ t.2 = st.2));
    [|done|exact Hrun].
  intros p [[[s t] sty] tty] t' _ [Hs Ht]. simpl in *.
  unfold resolve_package. destruct (getitem "name" p); simpl; [|done].
  repeat case_decide; intros; by simplify_eq.
Qed.

Lemma resolve_kinds (files packages : list record) (r : relationship)
    (st : endpoints) :
  resolve files packages r = Some st →
  st.1.2 = (if decide (named_in (rel_source r) files) then "file" else "package")
  ∧ st.2 = (if decide (rel_source r ≠ rel_target r
                       ∧ named_in (rel_target r) files)
            then "file" else "package").
Proof.
  unfold resolve.
  destruct (for_each (resolve_file r) files _) as [st1|] eqn:H1; simpl; [|done].
  intros H2. apply resolve_file_kinds in H1 as [Hs Ht].
  apply resolve_package_kinds in H2 as [-> ->]. by rewrite Hs, Ht.
Qed.

(** X8. A relationship between two different names, when the scans do
    not raise: if both names resolve in the document, one edge is appended
    with the same source, type and target, and each endpoint is classed as
    "file" when a file of the document bears its name (even if a package
    does too) and as "package" otherwise; if one of them does not resolve,
    the sequence is left as it is. *)
Theorem rebuild_distinct_endpoints (files packages : list record)
    (r : relationship) (relationships out : list relationship) :
  rel_source r ≠ rel_target r →
  rebuild_relationship files packages r relationships = Some out →
  out = relationships ++
        (if decide (resolves files packages (rel_source r)
                    ∧ resolves files packages (rel_target r))
         then [Relationship (rel_source r) (rel_type r) (rel_target r)
                 (Some (if decide (named_in (rel_source r) files)
                        then "file" else "package"))
                 (Some (if decide (named_in (rel_target r) files)
                        then "file" else "package"))]
         else []).
Proof.
  intros Hne Hrun. unfold rebuild_relationship in Hrun.
  destruct (resolve files packages r) as [[[[s t] sty] tty]|] eqn:Hres;
    simpl in Hrun; [|done].
  pose proof (resolve_found _ _ _ _ Hres) as [Hs Ht].
  pose proof (resolve_kinds _ _ _ _ Hres) as [Hsty Htty].
  simpl in Hs, Ht, Hsty, Htty.
  assert ((if decide (rel_source r ≠ rel_target r
                      ∧ named_in (rel_target r) files)
           then "file" else "package")
          = (if decide (named_in (rel_target r) files)
             then "file" else "package")) as Hkind
    by (apply decide_ext; tauto).
  rewrite Hkind in Htty. clear Hkind.
  destruct (decide (resolves files packages (rel_source r)
                    ∧ resolves files packages (rel_target r)))
    as [[[Hsn Hsin] [Htn Htin]]|Hno].
  - rewrite decide_True in Hs by done.
    rewrite decide_True in Ht by done. subst s t sty tty.
    rewrite decide_True in Hrun by done. by simplify_eq.
  - rewrite decide_False in Hrun; [simplify_eq; by rewrite app_nil_r|].
    intros [Hsn Htn]. apply Hno. unfold resolves.
    destruct (decide (named_in (rel_source r) (files ++ packages)));
      [|by subst s].
    destruct (decide (rel_source r ≠ rel_target r
                      ∧ named_in (rel_target r) (files ++ packages)))
      as [[_ ?]|?]; [|by subst t].
    subst s t. done.
Qed.

Lemma rebuild_distinct_endpoints_witness :
  [Relationship (VStr "a") "CONTAINS" (VStr "x") (Some "file") (Some "package")]
  = [] ++ [Relationship (VStr "a") "CONTAINS" (VStr "x")
             (Some "file") (Some "package")].
Proof.
  apply (rebuild_distinct_endpoints [Scenarios.fileB] [Scenarios.pkgX]
           (Relationship (VStr "a") "CONTAINS" (VStr "x") None None) []).
  - discriminate.
  - by_evaluation.
Defined.

(** X9. A relationship whose source and target are the same name is
    never rebuilt, even when that name resolves: the sequence is left as
    it is. *)
Theorem rebuild_self_relationship (files packages : list record)
    (r : relationship) (relationships out : list relationship) :
  rel_source r = rel_target r →
  rebuild_relationship files packages r relationships = Some out →
  out = relationships.
Proof.
  intros Heq Hrun. apply rebuild_relationship_rebuilt in Hrun as ->.
  rewrite rebuilt_self by done. apply app_nil_r.
Qed.

Lemma rebuild_self_relationship_witness :
  ([] : list relationship) = [].
Proof.
  apply (rebuild_self_relationship [] [Scenarios.pkgX] Scenarios.relXX [] []).
  - reflexivity.
  - by_evaluation.
Defined.

Lemma resolve_nameless (files packages : list record) (r : relationship) :
  ¬ Forall has_name (files ++ packages) → resolve files packages r = None.
Proof.
  intros Hn. apply not_Forall_Exists in Hn; [|apply _].
  apply Exists_exists in Hn as (f & Hf & Hnf%not_has_name).
  unfold resolve. apply elem_of_app in Hf as [Hf|Hf].
  - rewrite (for_each_None _ _ f _ Hf); [done|].
    intros [[[s t] sty] tty]. unfold resolve_file. by rewrite Hnf.
  - destruct (for_each (resolve_file r) files _) as [st|]; simpl; [|done].
    apply (for_each_None _ _ f _ Hf).
    intros [[[s t] sty] tty]. unfold resolve_package. by rewrite Hnf.
Qed.

(** Rebuilding the relationships of a document returns exactly when
    the document has no relationship or all its files and packages have a
    name: with one relationship to scan, a record without a name raises,
    whether or not the relationship mentions it. *)
Theorem rebuild_returns_iff (files packages : list record)
    (rs relationships : list relationship) :
  is_Some (for_each (rebuild_relationship files packages) rs relationships)
  ↔ rs = [] ∨ Forall has_name (files ++ packages).
Proof.
  split.
  - intros Hsome. destruct rs as [|r rs]; [by left|]. right.
    destruct (decide (Forall has_name (files ++ packages))) as [|Hn]; [done|].
    exfalso. cbn [for_each] in Hsome. unfold rebuild_relationship in Hsome.
    rewrite resolve_nameless in Hsome by done. by destruct Hsome.
  - intros [->|Hall]; [done|]. apply Forall_app in Hall as [Hf Hp].
    apply for_each_is_Some. intros r rels _.
    by apply rebuild_relationship_is_Some.
Qed.

Lemma rebuild_returns_iff_witness :
  is_Some (for_each (rebuild_relationship [] [Scenarios.pkgX; Scenarios.pkgY])
             [Scenarios.relXY] [])
  ∧ ¬ is_Some (for_each (rebuild_relationship [∅] [Scenarios.pkgX; Scenarios.pkgY])
                 [Scenarios.relXY] []).
Proof.
  split.
  - apply (proj2 (rebuild_returns_iff [] [Scenarios.pkgX; Scenarios.pkgY]
                    [Scenarios.relXY] [])).
    right. by_decision.
  - intros H.
    apply (proj1 (rebuild_returns_iff [∅] [Scenarios.pkgX; Scenarios.pkgY]
                    [Scenarios.relXY] [])) in H as [H|H]; [discriminate|].
    revert H. by_decision.
Defined.

(** ** The merged counter *)

Lemma for_each_measure {A S : Type} (body : A → S → option S) (m : S → nat)
    (l : list A) (s s' : S) :
  (∀ y t t', y ∈ l → body y t = Some t' → (m t ≤ m t')%nat) →
  for_each body l s = Some s' → (m s ≤ m s')%nat.
Proof.
  intros Hstep Hrun.
  eapply (for_each_invariant _ (λ t, (m s ≤ m t)%nat)); [|done|exact Hrun].
  intros y t t' Hy Ht Hbody. specialize (Hstep y t t' Hy Hbody). simpl in *. lia.
Qed.

Lemma for_each_measure_strict {A S : Type} (body : A → S → option S)
    (m : S → nat) (l : list A) (x : A) (s s' : S) :
  x ∈ l →
  (∀ y t t', y ∈ l → body y t = Some t' → (m t ≤ m t')%nat) →
  (∀ t t', body x t = Some t' → (m t < m t')%nat) →
  for_each body l s = Some s' → (m s < m s')%nat.
Proof.
  intros (l1 & l2 & ->)%list_elem_of_split Hstep Hx. rewrite for_each_app.
  destruct (for_each body l1 s) as [s1|] eqn:H1; simpl; [|done].
  destruct (body x s1) as [s2|] eqn:H2; simpl; [|done].
  intros H3.
  apply for_each_measure with (m := m) in H1;
    [|intros y t t' Hy; apply Hstep, elem_of_app; by left].
  apply for_each_measure with (m := m) in H3;
    [|intros y t t' Hy; apply Hstep, elem_of_app; right; by right].
  apply Hx in H2. lia.
Qed.

Lemma merge_file_match_merged (file g : record) (st st' : record * counters) :
  merge_file_match file g st = Some st' →
  merged_info st'.2 = merged_info st.2.
Proof.
  unfold merge_file_match. destruct st as [sbom c].
  destruct (getitem "name" g); simpl; [|done].
  destruct (getitem "name" file); simpl; [|done].
  case_decide; intros; simplify_eq; [|done].
  by rewrite reconcile_counters.
Qed.

Lemma merge_package_match_merged (package g : record) (st st' : package_acc) :
  merge_package_match package g st = Some st' →
  merged_info st'.1.2 = merged_info st.1.2.
Proof.
  unfold merge_package_match. destruct st as [[sbom c] log].
  destruct (getitem "name" g); simpl; [|done].
  destruct (getitem "name" package); simpl; [|done].
  case_decide; [|by intros; simplify_eq].
  pose proof (reconcile_counters package g sbom c) as Hc.
  destruct (reconcile package g (sbom, c)) as [sbom' c1]. simpl in Hc.
  destruct (package !! "version"), (g !! "version");
    try case_decide; intros; simplify_eq; done.
Qed.

(** The first loops: the merged counter moves by one on a record without
    an exact copy, and not at all otherwise. *)
Lemma process_file1_merged (files2 : list record) (file : record)
    (files files' : files_dict) (c c' : counters) :
  process_file1 files2 file (files, c) = Some (files', c') →
  merged_info c'
  = (if decide (file ∈ files2) then merged_info c else S (merged_info c)).
Proof.
  unfold process_file1. destruct (decide (file ∈ files2)) as [Hin|Hnin].
  - destruct (for_each (merge_file_match file) files2 (initialise, c))
      as [[sbom c1]|] eqn:Hloop; simpl; [|done].
    intros; simplify_eq.
    apply (for_each_invariant _ (λ t, merged_info t.2 = merged_info c))
      in Hloop; [done| |done].
    intros g t t' _ Ht Hstep. apply merge_file_match_merged in Hstep.
    congruence.
  - destruct (getitem "name" file); simpl; [|done]. by intros; simplify_eq.
Qed.

Lemma process_file2_merged (files1 : list record) (file : record)
    (files files' : files_dict) (c c' : counters) :
  process_file2 files1 file (files, c) = Some (files', c') →
  merged_info c'
  = (if decide (files1 ≠ [] ∧ file ∉ files1)
     then S (merged_info c) else merged_info c).
Proof.
  unfold process_file2. destruct (decide (0 < length files1)) as [Hlen|Hlen].
  - destruct (decide (file ∉ files1)) as [Hnin|Hin].
    + rewrite decide_True by (split; [by destruct files1; [simpl in Hlen; lia|]|done]).
      destruct (getitem "name" file); simpl; [|done]. by intros; simplify_eq.
    + rewrite decide_False by tauto. by intros; simplify_eq.
  - rewrite decide_False.
    + by intros; simplify_eq.
    + intros [Hne _]. destruct files1; [done|simpl in Hlen; lia].
Qed.

Lemma process_package1_merged (packages2 : list record) (package : record)
    (packages packages' : packages_dict) (c c' : counters)
    (log log' : list string) :
  process_package1 packages2 package (packages, c, log)
  = Some (packages', c', log') →
  merged_info c'
  = (if decide (package ∈ packages2) then merged_info c else S (merged_info c)).
Proof.
  unfold process_package1. destruct (decide (package ∈ packages2)) as [Hin|Hnin].
  - destruct (for_each (merge_package_match package) packages2 _)
      as [[[sbom c1] log1]|] eqn:Hloop; simpl; [|done].
    intros; simplify_eq.
    apply (for_each_invariant _ (λ t, merged_info t.1.2 = merged_info c))
      in Hloop; [done| |done].
    intros g t t' _ Ht Hstep. apply merge_package_match_merged in Hstep.
    congruence.
  - destruct (getitem "name" package); simpl; [|done]. by intros; simplify_eq.
Qed.

Lemma process_package2_merged (packages1 : list record) (package : record)
    (packages packages' : packages_dict) (c c' : counters)
    (log log' : list string) :
  process_package2 packages1 package (packages, c, log)
  = Some (packages', c', log') →
  merged_info c'
  = (if decide (package ∉ packages1) then S (merged_info c) else merged_info c).
Proof.
  unfold process_package2. destruct (decide (package ∉ packages1)).
  - destruct (getitem "name" package); simpl; [|done]. by intros; simplify_eq.
  - by intros; simplify_eq.
Qed.

Lemma files1_step_le (files2 : list record) (y : record)
    (t t' : files_dict * counters) :
  process_file1 files2 y t = Some t' → (merged_info t.2 ≤ merged_info t'.2)%nat.
Proof.
  destruct t as [files c], t' as [files' c']. intros H%process_file1_merged.
  simpl. rewrite H. case_decide; lia.
Qed.

Lemma files2_step_le (files1 : list record) (y : record)
    (t t' : files_dict * counters) :
  process_file2 files1 y t = Some t' → (merged_info t.2 ≤ merged_info t'.2)%nat.
Proof.
  destruct t as [files c], t' as [files' c']. intros H%process_file2_merged.
  simpl. rewrite H. case_decide; lia.
Qed.

Lemma packages1_step_le (packages2 : list record) (y : record)
    (t t' : packages_state) :
  process_package1 packages2 y t = Some t' →
  (merged_info t.1.2 ≤ merged_info t'.1.2)%nat.
Proof.
  destruct t as [[pk c] lg], t' as [[pk' c'] lg'].
  intros H%process_package1_merged. simpl. rewrite H. case_decide; lia.
Qed.

Lemma packages2_step_le (packages1 : list record) (y : record)
    (t t' : packages_state) :
  process_package2 packages1 y t = Some t' →
  (merged_info t.1.2 ≤ merged_info t'.1.2)%nat.
Proof.
  destruct t as [[pk c] lg], t' as [[pk' c'] lg'].
  intros H%process_package2_merged. simpl. rewrite H. case_decide; lia.
Qed.

Lemma merge_files_merged (files1 files2 : list record) (c c' : counters)
    (files : files_dict) :
  merge_files files1 files2 c = Some (files, c') →
  (merged_info c ≤ merged_info c')%nat
  ∧ ((∃ f, f ∈ files1 ∧ f ∉ files2)
     ∨ (files1 ≠ [] ∧ ∃ f, f ∈ files2 ∧ f ∉ files1) →
     (merged_info c < merged_info c')%nat).
Proof.
  unfold merge_files.
  destruct (for_each (process_file1 files2) files1 ([], c)) as [st1|] eqn:H1;
    simpl; [|done].
  intros H2.
  pose proof (for_each_measure _ (λ t, merged_info t.2) _ _ _
                (λ y t t' _, files1_step_le files2 y t t') H1) as Hle1.
  pose proof (for_each_measure _ (λ t, merged_info t.2) _ _ _
                (λ y t t' _, files2_step_le files1 y t t') H2) as Hle2.
  simpl in *. split; [lia|]. intros [(f & Hf & Hnot)|(Hne & f & Hf & Hnot)].
  - apply (for_each_measure_strict _ (λ t, merged_info t.2) _ f) in H1;
      [simpl in *; lia|done|intros y t t' _; apply files1_step_le|].
    intros [fs ct] [fs' ct'] Hstep%process_file1_merged. simpl.
    rewrite Hstep, decide_False by done. lia.
  - apply (for_each_measure_strict _ (λ t, merged_info t.2) _ f) in H2;
      [simpl in *; lia|done|intros y t t' _; apply files2_step_le|].
    intros [fs ct] [fs' ct'] Hstep%process_file2_merged. simpl.
    rewrite Hstep, decide_True by done. lia.
Qed.

Lemma merge_packages_merged (root_package : string)
    (packages1 packages2 : list record) (c c' : counters)
    (packages : packages_dict) (log : list string) :
  merge_packages root_package packages1 packages2 c = Some (packages, c', log) →
  (merged_info c ≤ merged_info c')%nat
  ∧ ((∃ p, p ∈ packages1 ∧ p ∉ packages2)
     ∨ (∃ p, p ∈ packages2 ∧ p ∉ packages1) →
     (merged_info c < merged_info c')%nat).
Proof.
  unfold merge_packages.
  destruct (for_each (process_package1 packages2) packages1 _) as [st1|] eqn:H1;
    simpl; [|done].
  intros H2.
  pose proof (for_each_measure _ (λ t, merged_info t.1.2) _ _ _
                (λ y t t' _, packages1_step_le packages2 y t t') H1) as Hle1.
  pose proof (for_each_measure _ (λ t, merged_info t.1.2) _ _ _
                (λ y t t' _, packages2_step_le packages1 y t t') H2) as Hle2.
  simpl in *. split; [lia|]. intros [(p & Hp & Hnot)|(p & Hp & Hnot)].
  - apply (for_each_measure_strict _ (λ t, merged_info t.1.2) _ p) in H1;
      [simpl in *; lia|done|intros y t t' _; apply packages1_step_le|].
    intros [[pk ct] lg] [[pk' ct'] lg'] Hstep%process_package1_merged. simpl.
    rewrite Hstep, decide_False by done. lia.
  - apply (for_each_measure_strict _ (λ t, merged_info t.1.2) _ p) in H2;
      [simpl in *; lia|done|intros y t t' _; apply packages2_step_le|].
    intros [[pk ct] lg] [[pk' ct'] lg'] Hstep%process_package2_merged. simpl.
    rewrite Hstep, decide_True by done. lia.
Qed.

(** ** Whole runs *)

(** X10. A run on two existing, different inputs that returns signals
    differences as soon as some file or package of one document has no
    exact copy in the other (for the files of the second document, when
    the first document has files): such a record is counted as merged. *)
Theorem unmatched_record_signals (path_exists : string → bool)
    (path_name : string → string) (parse_file : string → document)
    (FILE1 FILE2 : string) (o : outcome) :
  FILE1 ≠ FILE2 → path_exists FILE1 = true → path_exists FILE2 = true →
  unmatched (parse_file FILE1) (parse_file FILE2) →
  main path_exists path_name parse_file FILE1 FILE2 = Some o →
  return_code o = 1%Z.
Proof.
  intros Hne H1 H2 Hun Hmain. rewrite main_accepted in Hmain by done.
  destruct (merge _ _ _) as [res|] eqn:E; simpl in Hmain; [|done].
  simplify_eq. simpl. apply decide_True.
  apply merge_parts in E as (c1 & Hf & Hp & _).
  apply merge_files_merged in Hf as [Hle1 Hlt1].
  apply merge_packages_merged in Hp as [Hle2 Hlt2].
  right; right. simpl in *.
  destruct Hun as [Hu|[Hu|[Hu|Hu]]].
  - specialize (Hlt1 (or_introl Hu)). lia.
  - specialize (Hlt1 (or_intror Hu)). lia.
  - specialize (Hlt2 (or_introl Hu)). lia.
  - specialize (Hlt2 (or_intror Hu)). lia.
Qed.

Lemma unmatched_record_signals_witness :
  ∃ o, main Scenarios.path_exists Scenarios.path_name Scenarios.parse_file
         "one.spdx" "two.spdx" = Some o
       ∧ return_code o = 1%Z.
Proof.
  destruct (main Scenarios.path_exists Scenarios.path_name Scenarios.parse_file
              "one.spdx" "two.spdx") as [o|] eqn:E; [|by vm_compute in E].
  exists o. split; [done|].
  apply (unmatched_record_signals Scenarios.path_exists Scenarios.path_name
           Scenarios.parse_file "one.spdx" "two.spdx" o);
    [discriminate|reflexivity|reflexivity| |exact E].
  left. exists Scenarios.fileA. split; [by left|by_decision].
Defined.

(** X11. The relationships of the inputs have no part in the merged
    files, the merged packages, the counters or the log: two runs that
    differ only in the relationships agree on all four. *)
Theorem relationships_do_not_count (root_package : string)
    (files1 packages1 files2 packages2 : list record)
    (rs1 rs2 rs1' rs2' : list relationship) (res res' : merge_result) :
  merge root_package (Document files1 packages1 rs1)
    (Document files2 packages2 rs2) = Some res →
  merge root_package (Document files1 packages1 rs1')
    (Document files2 packages2 rs2') = Some res' →
  sbom_files (merged_sbom res) = sbom_files (merged_sbom res')
  ∧ sbom_packages (merged_sbom res) = sbom_packages (merged_sbom res')
  ∧ merge_counters res = merge_counters res'
  ∧ merge_log res = merge_log res'.
Proof.
  intros (c1 & Hf & Hp & _)%merge_parts (c1' & Hf' & Hp' & _)%merge_parts.
  simpl in *. rewrite Hf in Hf'. injection Hf' as Hfiles Hc.
  rewrite <-Hc, Hp in Hp'. injection Hp' as Hpk Hcnt Hlog. done.
Qed.

Lemma relationships_do_not_count_witness :
  ∃ res res',
    merge Scenarios.root (Document [] [Scenarios.pkgX; Scenarios.pkgY] [])
      Scenarios.empty = Some res
    ∧ merge Scenarios.root
        (Document [] [Scenarios.pkgX; Scenarios.pkgY] [Scenarios.relXY])
        Scenarios.empty = Some res'
    ∧ merge_counters res = merge_counters res'.
Proof.
  destruct (merge Scenarios.root
              (Document [] [Scenarios.pkgX; Scenarios.pkgY] []) Scenarios.empty)
    as [res|] eqn:E; [|by vm_compute in E].
  destruct (merge Scenarios.root
              (Document [] [Scenarios.pkgX; Scenarios.pkgY] [Scenarios.relXY])
              Scenarios.empty)
    as [res'|] eqn:E'; [|by vm_compute in E'].
  exists res, res'. split_and!; [done..|].
  by destruct (relationships_do_not_count _ _ _ _ _ _ _ _ _ _ _ E E')
    as (_ & _ & ? & _).
Defined.

(** X12. A run on two different inputs whose documents have the same
    files and the same packages, all named and no two of the same name,
    returns 0: every attribute is counted as unchanged and the updated, new
    and merged counters stay at zero, whatever the relationships. *)
Theorem same_content_signals_nothing (path_exists : string → bool)
    (path_name : string → string) (parse_file : string → document)
    (FILE1 FILE2 : string) (files packages : list record)
    (rs1 rs2 : list relationship) :
  FILE1 ≠ FILE2 → path_exists FILE1 = true → path_exists FILE2 = true →
  parse_file FILE1 = Document files packages rs1 →
  parse_file FILE2 = Document files packages rs2 →
  Forall has_name files → NoDup (name_attr <$> files) →
  Forall has_name packages → NoDup (name_attr <$> packages) →
  ∃ o, main path_exists path_name parse_file FILE1 FILE2 = Some o
       ∧ return_code o = 0%Z
       ∧ summary o
         = Some (Counters 0 (attributes files + attributes packages) 0 0).
Proof.
  intros Hne H1 H2 Hd1 Hd2 Hfn Hfd Hpn Hpd.
  rewrite main_accepted by done. rewrite Hd1, Hd2.
  destruct (merge_succeeds
              (root_package_name (path_name FILE1) (path_name FILE2))
              (Document files packages rs1) (Document files packages rs2))
    as [res Hres]; [done..|].
  rewrite Hres. simpl. eexists. split; [done|]. simpl.
  apply merge_parts in Hres as (c1 & Hf & Hp & _). simpl in Hf, Hp.
  assert (merge_counters res
          = Counters 0 (attributes files + attributes packages) 0 0) as ->.
  { rewrite merge_files_same in Hf by done. injection Hf as _ <-.
    rewrite merge_packages_same in Hp by done. by injection Hp as _ <- _. }
  split; [|done]. apply decide_False.
  unfold signals_differences. simpl. tauto.
Qed.

Lemma same_content_signals_nothing_witness :
  ∃ o, main Scenarios.path_exists Scenarios.path_name
         (λ f, if decide (f = "one.spdx")
               then Document [Scenarios.fileA] [Scenarios.libA1] []
               else Document [Scenarios.fileA] [Scenarios.libA1] [Scenarios.relXY])
         "one.spdx" "two.spdx" = Some o
       ∧ return_code o = 0%Z
       ∧ summary o
         = Some (Counters 0 (attributes [Scenarios.fileA]
                             + attributes [Scenarios.libA1]) 0 0).
Proof.
  apply (same_content_signals_nothing Scenarios.path_exists Scenarios.path_name
           _ "one.spdx" "two.spdx" [Scenarios.fileA] [Scenarios.libA1]
           [] [Scenarios.relXY]);
    [discriminate|reflexivity|reflexivity|reflexivity|reflexivity
    |by_decision..].
Defined.

(** X13. The merge returns exactly when every package of both documents
    and every file of the first document has a name, and every file of the
    second has one too unless the first document has no file and the
    second no relationship; otherwise a lookup of "name" raises. *)
Theorem merge_returns_iff (root_package : string) (doc1 doc2 : document) :
  is_Some (merge root_package doc1 doc2)
  ↔ Forall has_name (doc_files doc1)
    ∧ Forall has_name (doc_packages doc1 ++ doc_packages doc2)
    ∧ (doc_files doc1 ≠ [] ∨ doc_relationships doc2 ≠ [] →
       Forall has_name (doc_files doc2)).
Proof.
  split.
  - intros [res Hres].
    pose proof (merge_parts _ _ _ _ Hres) as (c1 & Hf & Hp & _).
    assert (is_Some (merge_files (doc_files doc1) (doc_files doc2)
                       counters_zero)) as [Hf1 Hf2]%merge_files_returns_iff
      by eauto.
    assert (is_Some (merge_packages root_package (doc_packages doc1)
                       (doc_packages doc2) c1)) as Hpn%merge_packages_returns_iff
      by eauto.
    split_and!; [done..|]. intros [Hne|Hrs]; [by apply Hf2|].
    unfold merge in Hres. rewrite Hf in Hres. simpl in Hres.
    rewrite Hp in Hres. simpl in Hres.
    destruct (for_each (rebuild_relationship (doc_files doc1) _) _ _)
      as [rels1|]; simpl in Hres; [|done].
    destruct (for_each (rebuild_relationship (doc_files doc2) _) _ _)
      as [rels2|] eqn:H2; simpl in Hres; [|done].
    assert (is_Some (for_each
                       (rebuild_relationship (doc_files doc2) (doc_packages doc2))
                       (doc_relationships doc2) rels1))
      as [?|Hall]%rebuild_returns_iff by eauto; [done|].
    by apply Forall_app in Hall as [? _].
  - intros (Hf1 & [Hp1 Hp2]%Forall_app & Hf2).
    unfold merge.
    destruct (merge_files_is_Some (doc_files doc1) (doc_files doc2)
                counters_zero Hf1) as [[files c1] ->].
    { intros Hne. apply Hf2. by left. }
    simpl.
    destruct (merge_packages_is_Some root_package (doc_packages doc1)
                (doc_packages doc2) c1 Hp1 Hp2) as [[[packages c2] log] ->].
    simpl.
    match goal with |- context [for_each (rebuild_relationship ?f ?p) ?l ?s] =>
      destruct (proj2 (rebuild_returns_iff f p l s)) as [rels1 ->] end.
    { right. by apply Forall_app. }
    simpl.
    match goal with |- context [for_each (rebuild_relationship ?f ?p) ?l ?s] =>
      destruct (proj2 (rebuild_returns_iff f p l s)) as [rels2 ->] end.
    { destruct (decide (doc_relationships doc2 = [])) as [|Hrs]; [by left|].
      right. apply Forall_app. split; [|done]. apply Hf2. by right. }
    done.
Qed.

Lemma merge_returns_iff_witness :
  is_Some (merge Scenarios.root Scenarios.empty (Document [∅] [] []))
  ∧ ¬ is_Some (merge Scenarios.root Scenarios.empty
                 (Document [∅] [] [Scenarios.relXY])).
Proof.
  split.
  - apply (proj2 (merge_returns_iff Scenarios.root Scenarios.empty
                    (Document [∅] [] []))).
    split_and!; [by_decision|by_decision|].
    intros [H|H]; by destruct H.
  - intros H.
    apply (proj1 (merge_returns_iff Scenarios.root Scenarios.empty
                    (Document [∅] [] [Scenarios.relXY]))) in H
      as (_ & _ & H).
    assert (Forall has_name [(∅ : record)]) as Hall.
    { apply H. right. simpl. discriminate. }
    revert Hall. by_decision.
Defined.

(** X14. The messages of a rejected run.  Two equal names give the one
    line "Must specify different filenames." and -1, whether or not the
    file exists; two different names of which one is missing give one
    line for each missing file, the first input first, and -1. *)
Theorem rejection_messages (path_exists : string → bool)
    (path_name : string → string) (parse_file : string → document)
    (FILE1 FILE2 : string) :
  main path_exists path_name parse_file FILE1 FILE1
  = Some (Outcome (-1) ["Must specify different filenames."] None None)
  ∧ (FILE1 ≠ FILE2 → path_exists FILE1 && path_exists FILE2 = false →
     main path_exists path_name parse_file FILE1 FILE2
     = Some (Outcome (-1)
               ((if path_exists FILE1 then []
                 else [FILE1 +:+ " does not exist"])
                ++ (if path_exists FILE2 then []
                    else [FILE2 +:+ " does not exist"]))
               None None)).
Proof.
  split.
  - unfold main. by rewrite decide_False by (intros H; by apply H).
  - intros Hne Hmissing. unfold main. rewrite decide_True by done.
    by rewrite Hmissing.
Qed.

Lemma rejection_messages_witness :
  main Scenarios.path_exists Scenarios.path_name Scenarios.parse_file
    "missing.spdx" "two.spdx"
  = Some (Outcome (-1) ["missing.spdx does not exist"] None None).
Proof.
  apply (proj2 (rejection_messages Scenarios.path_exists Scenarios.path_name
                  Scenarios.parse_file "missing.spdx" "two.spdx"));
    [discriminate|reflexivity].
Defined.

(** ** The name of the root package *)

Lemma list_ascii_of_string_app (s1 s2 : string) :
  list_ascii_of_string (s1 +:+ s2)
  = list_ascii_of_string s1 ++ list_ascii_of_string s2.
Proof. induction s1 as [|a s1 IH]; simpl; [done|]. by rewrite IH. Qed.

Lemma replace_dot_dot_free (s : string) : dot_free (replace_dot s).
Proof.
  unfold dot_free. induction s as [|a s IH]; simpl.
  - apply not_elem_of_nil.
  - apply not_elem_of_cons. split; [|done]. by case_decide.
Qed.

Lemma replace_dot_length (s : string) :
  String.length (replace_dot s) = String.length s.
Proof. induction s as [|a s IH]; simpl; [done|]. by rewrite IH. Qed.

Lemma string_length_app (s1 s2 : string) :
  String.length (s1 +:+ s2) = String.length s1 + String.length s2.
Proof. induction s1 as [|a s1 IH]; simpl; [done|]. by rewrite IH. Qed.

(** X15. Whatever the two file names, the name of the root package and
    the name of the synthetic document root contain no '.': every dot of
    the file names is replaced; and the root name is as long as the two
    file names and the eleven characters of "MERGETOOL-" and "-". *)
Theorem root_name_dot_free (name1 name2 : string) :
  dot_free (root_package_name name1 name2)
  ∧ dot_free (parent_name (root_package_name name1 name2))
  ∧ String.length (root_package_name name1 name2)
    = 11 + String.length name1 + String.length name2.
Proof.
  assert (dot_free (root_package_name name1 name2)) as Hroot.
  { unfold dot_free, root_package_name.
    rewrite !list_ascii_of_string_app, !not_elem_of_app.
    split_and!; try apply replace_dot_dot_free; by_decision. }
  split_and!; [done| |].
  - unfold dot_free, parent_name. rewrite list_ascii_of_string_app.
    apply not_elem_of_app. split; [by_decision|done].
  - unfold root_package_name.
    rewrite !string_length_app, !replace_dot_length. simpl. lia.
Qed.

(** X16. Merging two documents with the same files and the same packages,
    all named and no two of the same name: the merged file mapping holds
    every file as it is under its name, the merged package mapping holds
    the root package and then every package as it is under its name and
    version, every attribute is counted as unchanged and nothing else is
    counted or logged. *)
Theorem merge_same_content (root_package : string) (files packages : list record)
    (rs1 rs2 : list relationship) (res : merge_result) :
  Forall has_name files → NoDup (name_attr <$> files) →
  Forall has_name packages → NoDup (name_attr <$> packages) →
  merge root_package (Document files packages rs1)
    (Document files packages rs2) = Some res →
  sbom_files (merged_sbom res) = store_all get_name files []
  ∧ sbom_packages (merged_sbom res)
    = store_all package_key_of packages (root_only root_package)
  ∧ merge_counters res
    = Counters 0 (attributes files + attributes packages) 0 0
  ∧ merge_log res = [].
Proof.
  intros Hfn Hfd Hpn Hpd (c1 & Hf & Hp & _)%merge_parts. simpl in Hf, Hp.
  rewrite merge_files_same in Hf by done. injection Hf as <- <-.
  rewrite merge_packages_same in Hp by done. by injection Hp as <- <- <-.
Qed.

Lemma merge_same_content_witness :
  ∃ res,
    merge Scenarios.root (Document [Scenarios.fileA] [Scenarios.libA1] [])
      (Document [Scenarios.fileA] [Scenarios.libA1] [Scenarios.relXY])
    = Some res
    ∧ merge_counters res = Counters 0 6 0 0 ∧ merge_log res = [].
Proof.
  destruct (merge Scenarios.root
              (Document [Scenarios.fileA] [Scenarios.libA1] [])
              (Document [Scenarios.fileA] [Scenarios.libA1] [Scenarios.relXY]))
    as [res|] eqn:E; [|by vm_compute in E].
  exists res. split; [done|].
  destruct (merge_same_content Scenarios.root [Scenarios.fileA]
              [Scenarios.libA1] [] [Scenarios.relXY] res)
    as (_ & _ & Hc & Hlog); [by_decision..|exact E|].
  split; [|done]. rewrite Hc. by_evaluation.
Defined.
